(** * MyAndroidLLM: the model-artifact lifecycle and the streaming completion
    session of [App.tsx], embedded in Rocq.

    The embedding follows the component function [App] of [App.tsx]:
    - [JS]: the string primitives of the platform that the component calls
      ([includes], [replace], [trim], [endsWith], the regular expression
      [/<think>.*?<\/think>/gs]);
    - [Chat]: the conversation log, the token callback of
      [handleSendMessage], [stopGeneration] and the throughput samples;
    - [Engine]: [loadModel] and the contexts of [llama.rn];
    - [Json]: [JSON.stringify] and [JSON.parse] on the metadata list;
    - [Meta]: the metadata list, its persistence effect, the startup
      reconciliation [checkDownloadedModels] and [handleDownloadModel].

    React state is modelled by explicit state passing: a call
    [setX (prev => e)] is the function [fun prev => e] applied to the
    current value of the state; a value that a function reads from the
    render that created it (a closure variable) is an argument of its own.
    What the platform answers (the engine, the file system, the transfer)
    is an argument too. The definitions come first, the facts after
    them. *)

From Stdlib Require Import String Ascii.
From Stdlib Require Import List NArith ZArith Arith Bool Lia.
From Stdlib Require Import DecimalN DecimalPos.
Import ListNotations.

(* ================================================================== *)
(** * JavaScript strings *)
(* ================================================================== *)

Module JS.

(** A JavaScript string is a sequence of UTF-16 code units. *)
Definition char := N.
Definition str := list char.

(** String literals of the source. *)
Definition lit (s : string) : str :=
  map N_of_ascii (list_ascii_of_string s).

Fixpoint str_eqb (a b : str) : bool :=
  match a, b with
  | [], [] => true
  | x :: a', y :: b' => N.eqb x y && str_eqb a' b'
  | _, _ => false
  end.

(** [s.startsWith(p)] *)
Fixpoint startsWith (p s : str) : bool :=
  match p, s with
  | [], _ => true
  | _ :: _, [] => false
  | x :: p', y :: s' => N.eqb x y && startsWith p' s'
  end.

(** [s.endsWith(p)] *)
Definition endsWith (p s : str) : bool := startsWith (rev p) (rev s).

(** [s.indexOf(p)], [None] for [-1]. *)
Fixpoint indexOf (p s : str) {struct s} : option nat :=
  if startsWith p s then Some 0%nat
  else match s with
       | [] => None
       | _ :: t => option_map S (indexOf p t)
       end.

(** [s.includes(p)] *)
Definition includes (p s : str) : bool :=
  match indexOf p s with Some _ => true | None => false end.

(** [s.replace(p, r)] with a string pattern: the first occurrence only.
    (The source only ever passes the empty replacement, so the [$]
    patterns of replacement strings do not arise.) *)
Definition replace (p r s : str) : str :=
  match indexOf p s with
  | Some i => firstn i s ++ r ++ skipn (i + length p) s
  | None => s
  end.

(** White space and line terminators, as [String.prototype.trim] removes
    them. *)
Definition is_ws (c : char) : bool :=
  ((9 <=? c) && (c <=? 13) || (c =? 32) || (c =? 160) || (c =? 5760)
   || (8192 <=? c) && (c <=? 8202) || (c =? 8232) || (c =? 8233)
   || (c =? 8239) || (c =? 8287) || (c =? 12288) || (c =? 65279))%N.

Fixpoint trimStart (s : str) : str :=
  match s with
  | c :: t => if is_ws c then trimStart t else s
  | [] => []
  end.

Definition trimEnd (s : str) : str := rev (trimStart (rev s)).

Definition trim (s : str) : str := trimEnd (trimStart s).

Definition OPEN : str := lit "<think>".
Definition CLOSE : str := lit "</think>".

(** One attempt of the regular expression [/<think>.*?<\/think>/s] at the
    start of [s]: the literal [<think>], then the shortest run of arbitrary
    code units (flag [s]: line terminators included) that is followed by
    [</think>]. The result is the length of the match. *)
Definition match_think (s : str) : option nat :=
  if startsWith OPEN s then
    match indexOf CLOSE (skipn (length OPEN) s) with
    | Some j => Some (length OPEN + j + length CLOSE)%nat
    | None => None
    end
  else None.

(** [s.replace(/<think>.*?<\/think>/gs, "")]: the scan goes left to right;
    where the expression matches, the match is dropped and the scan resumes
    after it (flag [g]); elsewhere the code unit is copied. [skip] counts
    the code units of the current match still to be dropped. *)
Fixpoint replace_think_from (skip : nat) (s : str) : str :=
  match s with
  | [] => []
  | c :: t =>
      match skip with
      | S k => replace_think_from k t
      | O =>
          match match_think s with
          | Some len => replace_think_from (pred len) t
          | None => c :: replace_think_from 0 t
          end
      end
  end.

Definition replace_think (s : str) : str := replace_think_from 0 s.

End JS.

Import JS.

(* ================================================================== *)
(** * The state of the component *)
(* ================================================================== *)

(** [type Message]; an optional field that is absent (or [undefined]) is
    [None]. *)
Inductive Role := system | user | assistant.

Definition Role_eqb (a b : Role) : bool :=
  match a, b with
  | system, system | user, user | assistant, assistant => true
  | _, _ => false
  end.

Record Message := {
  role : Role;
  content : str;
  thought : option str;
  showThought : option bool;
}.

(** [type ModelMetadata]; [size] is in bytes. *)
Record ModelMetadata := {
  filename : str;
  format : str;
  downloadDate : str;
  size : option N;
}.

(** A context of [llama.rn], as [initLlama] returns it. *)
Definition Handle := nat.

(** [result.timings.predicted_per_second] after
    [parseFloat(x.toFixed(2))], counted in hundredths of a token per
    second. *)
Definition Sample := N.

(** The [useState] cells of [App] that the lifecycle and the completion
    session read and write, and [engine], the contexts that are alive
    inside [llama.rn] (created by [initLlama], destroyed by
    [releaseAllLlama]). *)
Record App := {
  context : option Handle;
  engine : list Handle;
  conversation : list Message;
  tokensPerSecond : list Sample;
  modelMetadata : list ModelMetadata;
  downloadedModels : list str;
  selectedModelFormat : str;
}.

Definition INITIAL_CONVERSATION : list Message :=
  [ {| role := system;
       content := lit "This is a conversation between user and assistant, a friendly chatbot.";
       thought := None; showThought := None |} ].

(** The first render: every cell at the initial value given to
    [useState]. *)
Definition initial_App : App :=
  {| context := None; engine := []; conversation := INITIAL_CONVERSATION;
     tokensPerSecond := []; modelMetadata := []; downloadedModels := [];
     selectedModelFormat := [] |}.

Definition setContext (c : option Handle) (a : App) : App :=
  {| context := c; engine := engine a; conversation := conversation a;
     tokensPerSecond := tokensPerSecond a; modelMetadata := modelMetadata a;
     downloadedModels := downloadedModels a;
     selectedModelFormat := selectedModelFormat a |}.

Definition setEngine (e : list Handle) (a : App) : App :=
  {| context := context a; engine := e; conversation := conversation a;
     tokensPerSecond := tokensPerSecond a; modelMetadata := modelMetadata a;
     downloadedModels := downloadedModels a;
     selectedModelFormat := selectedModelFormat a |}.

Definition setConversation (c : list Message) (a : App) : App :=
  {| context := context a; engine := engine a; conversation := c;
     tokensPerSecond := tokensPerSecond a; modelMetadata := modelMetadata a;
     downloadedModels := downloadedModels a;
     selectedModelFormat := selectedModelFormat a |}.

Definition setTokensPerSecond (t : list Sample) (a : App) : App :=
  {| context := context a; engine := engine a; conversation := conversation a;
     tokensPerSecond := t; modelMetadata := modelMetadata a;
     downloadedModels := downloadedModels a;
     selectedModelFormat := selectedModelFormat a |}.

Definition setModelMetadata (m : list ModelMetadata) (a : App) : App :=
  {| context := context a; engine := engine a; conversation := conversation a;
     tokensPerSecond := tokensPerSecond a; modelMetadata := m;
     downloadedModels := downloadedModels a;
     selectedModelFormat := selectedModelFormat a |}.

Definition setDownloadedModels (d : list str) (a : App) : App :=
  {| context := context a; engine := engine a; conversation := conversation a;
     tokensPerSecond := tokensPerSecond a; modelMetadata := modelMetadata a;
     downloadedModels := d;
     selectedModelFormat := selectedModelFormat a |}.

(* ================================================================== *)
(** * The conversation log and the token callback *)
(* ================================================================== *)

Module Chat.

(** [updated[prev.length - 1] = f(updated[prev.length - 1])] on a copy of
    [prev]. On an empty log the element read is [undefined] and reading a
    property of it throws: [None]. *)
Fixpoint update_last (f : Message -> Message) (prev : list Message)
  : option (list Message) :=
  match prev with
  | [] => None
  | [m] => Some [f m]
  | x :: t => option_map (cons x) (update_last f t)
  end.

(** The variables [currentAssistantMessage], [currentThought] and
    [inThinkBlock] that the token callback closes over. *)
Record Stream := {
  currentAssistantMessage : str;
  currentThought : str;
  inThinkBlock : bool;
}.

Definition start : Stream :=
  {| currentAssistantMessage := []; currentThought := [];
     inThinkBlock := false |}.

(** The placeholder appended before the first token arrives. *)
Definition placeholder : Message :=
  {| role := assistant; content := []; thought := None;
     showThought := Some false |}.

(** The updater of the [</think>] branch. *)
Definition publishThought (finalThought : str) (m : Message) : Message :=
  {| role := role m;
     content := replace (OPEN ++ finalThought ++ CLOSE) [] (content m);
     thought := Some finalThought;
     showThought := showThought m |}.

(** [updated[lastIndex].content = visibleContent] *)
Definition publishContent (visibleContent : str) (m : Message) : Message :=
  {| role := role m; content := visibleContent; thought := thought m;
     showThought := showThought m |}.

(** The callback passed to [context.completion], on one token. *)
Definition onToken (st : Stream * list Message) (token : str)
  : option (Stream * list Message) :=
  let '(s, conv) := st in
  let message := currentAssistantMessage s ++ token in
  let '(thoughtNow, inBlock, conv1) :=
    if includes OPEN token then
      (replace OPEN [] token, true, Some conv)
    else if includes CLOSE token then
      let finalThought := trim (replace CLOSE [] (currentThought s)) in
      ([], false, update_last (publishThought finalThought) conv)
    else if inThinkBlock s then
      (currentThought s ++ token, inThinkBlock s, Some conv)
    else (currentThought s, inThinkBlock s, Some conv) in
  let visibleContent := trim (replace_think message) in
  match conv1 with
  | None => None
  | Some c1 =>
      match update_last (publishContent visibleContent) c1 with
      | None => None
      | Some c2 =>
          Some ({| currentAssistantMessage := message;
                   currentThought := thoughtNow;
                   inThinkBlock := inBlock |}, c2)
      end
  end.

(** The callback on the tokens of one completion, in arrival order. *)
Fixpoint onTokens (st : Stream * list Message) (tokens : list str)
  : option (Stream * list Message) :=
  match tokens with
  | [] => Some st
  | t :: ts =>
      match onToken st t with
      | Some st' => onTokens st' ts
      | None => None
      end
  end.

(** The closure variables after the callback has run on [token]. *)
Definition nextStream (s : Stream) (token : str) : Stream :=
  {| currentAssistantMessage := currentAssistantMessage s ++ token;
     currentThought :=
       if includes OPEN token then replace OPEN [] token
       else if includes CLOSE token then []
       else if inThinkBlock s then currentThought s ++ token
       else currentThought s;
     inThinkBlock :=
       if includes OPEN token then true
       else if includes CLOSE token then false
       else inThinkBlock s |}.

(** The token takes the [</think>] branch of the callback. *)
Definition closes (token : str) : bool :=
  negb (includes OPEN token) && includes CLOSE token.

(** The turn in flight after the callback has run on [token]. *)
Definition nextTurn (s : Stream) (m : Message) (token : str) : Message :=
  {| role := role m;
     content := trim (replace_think (currentAssistantMessage s ++ token));
     thought :=
       if closes token
       then Some (trim (replace CLOSE [] (currentThought s)))
       else thought m;
     showThought := showThought m |}.

Definition step (sm : Stream * Message) (token : str) : Stream * Message :=
  (nextStream (fst sm) token, nextTurn (fst sm) (snd sm) token).

Definition steps (sm : Stream * Message) (tokens : list str)
  : Stream * Message :=
  fold_left step tokens sm.

(** The fragments of the example scenario. *)
Definition split_fragments : list str :=
  [lit "Hello "; lit "<thi"; lit "nk>planning</thin"; lit "k> world"].

(** How [context.completion] ends: it resolves with its timings, or it
    rejects; either way after having delivered some tokens. *)
Inductive Completion :=
| Resolved (tokens : list str) (predicted_per_second : Sample)
| Rejected (tokens : list str).

Definition tokens_of (c : Completion) : list str :=
  match c with Resolved t _ => t | Rejected t => t end.

(** [handleSendMessage]. [None]: an updater threw. *)
Definition handleSendMessage (userInput : str) (c : Completion) (a : App)
  : option App :=
  match context a with
  | None => Some a
  | Some _ =>
      match trim userInput with
      | [] => Some a
      | _ :: _ =>
          let newConversation :=
            conversation a ++
            [ {| role := user; content := userInput; thought := None;
                 showThought := None |} ] in
          match onTokens (start, newConversation ++ [placeholder])
                         (tokens_of c) with
          | None => None
          | Some (_, conv) =>
              let a1 := setConversation conv a in
              match c with
              | Resolved _ pps =>
                  Some (setTokensPerSecond (tokensPerSecond a1 ++ [pps]) a1)
              | Rejected _ => Some a1
              end
          end
      end
  end.

(** What the render shows under the message at position [index] of
    [conversation.slice(1)] when its role is [assistant]:
    [tokensPerSecond[Math.floor(index / 2)]]. *)
Definition shownSample (a : App) (index : nat) : option Sample :=
  nth_error (tokensPerSecond a) (index / 2).

Definition STOP_NOTICE : str :=
  [10; 10]%N ++ lit "*Generation stopped by user*".

(** The updater of [stopGeneration]; [None]: [lastMessage] is [undefined]
    and reading [role] throws. *)
Definition stopUpdater (prev : list Message) : option (list Message) :=
  match rev prev with
  | [] => None
  | lastMessage :: _ =>
      if Role_eqb (role lastMessage) assistant then
        Some (removelast prev ++
              [ {| role := role lastMessage;
                   content := content lastMessage ++ STOP_NOTICE;
                   thought := thought lastMessage;
                   showThought := showThought lastMessage |} ])
      else Some prev
  end.

(** [stopGeneration]. [stopped] tells whether
    [await context.stopCompletion()] returned; when it threw (also when
    [context] is [null]) the [catch] only logs. *)
Definition stopGeneration (stopped : bool) (prev : list Message)
  : option (list Message) :=
  if stopped then stopUpdater prev else Some prev.

End Chat.

(* ================================================================== *)
(** * Loading a model *)
(* ================================================================== *)

Module Engine.

Definition UNKNOWN : str := lit "Unknown".

(** What the two calls into [llama.rn] do in one run of [loadModel]:
    whether [releaseAllLlama()] returns (it then has destroyed every
    context) or throws (it then has destroyed none), and the context that
    [initLlama] returns, [None] when it throws. *)
Record Calls := {
  released : bool;
  init : option Handle;
}.

(** [m.filename === modelName ? {...m, format: selectedModelFormat || m.format} : m] *)
Definition fixFormat (modelName fmt : str) (m : ModelMetadata)
  : ModelMetadata :=
  if str_eqb (filename m) modelName then
    {| filename := filename m;
       format := match fmt with [] => format m | _ :: _ => fmt end;
       downloadDate := downloadDate m;
       size := size m |}
  else m.

(** The part of [loadModel] from [initLlama] on. The states are listed in
    the order in which the statements produce them. *)
Definition initSteps (c : Calls) (modelName : str)
  (seen : list ModelMetadata) (a : App) : list App * bool :=
  match init c with
  | None => ([], false)
  | Some llamaContext =>
      let a1 := setEngine (llamaContext :: engine a) a in
      let a2 := setContext (Some llamaContext) a1 in
      match find (fun m => str_eqb (filename m) modelName) seen with
      | Some modelMeta =>
          if str_eqb (format modelMeta) UNKNOWN then
            ([a1; a2;
              setModelMetadata
                (map (fixFormat modelName (selectedModelFormat a2))
                     (modelMetadata a2)) a2], true)
          else ([a1; a2], true)
      | None => ([a1; a2], true)
      end
  end.

(** [loadModel(modelName)]: the states the component goes through, one
    after each statement that changes [context], the engine, the
    conversation or the metadata, and the value returned. [seen] is the
    [modelMetadata] of the render that created the function. A call that
    throws ends the run in the [catch], which changes none of these. *)
Definition loadModel (c : Calls) (modelName : str)
  (seen : list ModelMetadata) (a : App) : list App * bool :=
  match context a with
  | Some _ =>
      if released c then
        let a1 := setEngine [] a in
        let a2 := setContext None a1 in
        let a3 := setConversation INITIAL_CONVERSATION a2 in
        let '(steps, ok) := initSteps c modelName seen a3 in
        (a1 :: a2 :: a3 :: steps, ok)
      else ([], false)
  | None => initSteps c modelName seen a
  end.

(** The state in which a run leaves the component. *)
Definition after (run : list App * bool) (a : App) : App :=
  last (fst run) a.

(** Every state that a sequence of [loadModel] calls goes through, the
    starting state included, when the calls do not overlap: each call is
    made by the render that follows the end of the call before it, so the
    [context] it reads is that of the state it starts in. Calls that
    overlap are [interleaved], below. *)
Fixpoint loads (calls : list (Calls * str * list ModelMetadata)) (a : App)
  : list App :=
  match calls with
  | [] => [a]
  | (c, modelName, seen) :: rest =>
      let run := loadModel c modelName seen a in
      a :: fst run ++ loads rest (after run a)
  end.

(** Between two runs of [loadModel] the engine holds the context that
    [context] refers to, and no other. *)
Definition settled (a : App) : Prop :=
  engine a = match context a with Some h => [h] | None => [] end.

(** ** A call made by an older render, and calls that overlap *)

(** [loadModel] up to its call of [initLlama]. [seenContext] is the
    [context] that the function reads: the one of the render that created
    it, whatever the state has become since. The second component tells
    whether the run goes on to [initLlama]. *)
Definition releaseSteps (seenContext : option Handle) (c : Calls) (a : App)
  : list App * bool :=
  match seenContext with
  | Some _ =>
      if released c then
        let a1 := setEngine [] a in
        let a2 := setContext None a1 in
        let a3 := setConversation INITIAL_CONVERSATION a2 in
        ([a1; a2; a3], true)
      else ([], false)
  | None => ([], true)
  end.

(** [loadModel(modelName)] as created by a render whose [context] is
    [seenContext], run without another call in between. *)
Definition loadModelFrom (seenContext : option Handle) (c : Calls)
  (modelName : str) (seen : list ModelMetadata) (a : App)
  : list App * bool :=
  let '(before, goes_on) := releaseSteps seenContext c a in
  if goes_on then
    let '(steps, ok) := initSteps c modelName seen (last before a) in
    (before ++ steps, ok)
  else (before, false).

(** A run of [loadModel] gives way to other code at its [await]s. Its two
    stretches are the one up to the call of [initLlama] and the one from
    the return of [initLlama] on. *)
Inductive Stretch :=
| UpToInit (seenContext : option Handle) (c : Calls)
| FromInit (c : Calls) (modelName : str) (seen : list ModelMetadata).

Definition stretch (s : Stretch) (a : App) : list App :=
  match s with
  | UpToInit seenContext c => fst (releaseSteps seenContext c a)
  | FromInit c modelName seen => fst (initSteps c modelName seen a)
  end.


End Engine.

(* ================================================================== *)
(** * JSON text of the metadata list *)
(* ================================================================== *)

Module Json.

Definition QUOTE : char := 34%N.
Definition BACKSLASH : char := 92%N.

Definition is_high (c : char) : bool := ((55296 <=? c) && (c <=? 56319))%N.
Definition is_low (c : char) : bool := ((56320 <=? c) && (c <=? 57343))%N.

(** Lower-case hexadecimal digit of a value below 16. *)
Definition hex_digit (n : N) : char :=
  (if n <? 10 then 48 + n else 87 + n)%N.

(** [\uXXXX] *)
Definition unicode_escape (c : char) : str :=
  [BACKSLASH; 117; hex_digit (c / 4096); hex_digit ((c / 256) mod 16);
   hex_digit ((c / 16) mod 16); hex_digit (c mod 16)]%N.

(** A code unit that is not half of a surrogate pair, as
    [QuoteJSONString] writes it. *)
Definition quote_unit (c : char) : str :=
  (if c =? 8 then [BACKSLASH; 98]
   else if c =? 9 then [BACKSLASH; 116]
   else if c =? 10 then [BACKSLASH; 110]
   else if c =? 12 then [BACKSLASH; 102]
   else if c =? 13 then [BACKSLASH; 114]
   else if c =? 34 then [BACKSLASH; 34]
   else if c =? 92 then [BACKSLASH; 92]
   else if c <? 32 then unicode_escape c
   else [c])%N.

(** The body of a quoted string. A surrogate that has its partner next to
    it is written as it is, a lone one is escaped; [prev_high] tells
    whether the code unit before [s] is a high surrogate. *)
Fixpoint quote_from (prev_high : bool) (s : str) : str :=
  match s with
  | [] => []
  | c :: t =>
      (if is_high c then
         if match t with d :: _ => is_low d | [] => false end
         then [c] else unicode_escape c
       else if is_low c then
         if prev_high then [c] else unicode_escape c
       else quote_unit c)
      ++ quote_from (is_high c) t
  end.

Definition quote (s : str) : str := QUOTE :: quote_from false s ++ [QUOTE].

Fixpoint digits (u : Decimal.uint) : str :=
  match u with
  | Decimal.Nil => []
  | Decimal.D0 u => 48 :: digits u
  | Decimal.D1 u => 49 :: digits u
  | Decimal.D2 u => 50 :: digits u
  | Decimal.D3 u => 51 :: digits u
  | Decimal.D4 u => 52 :: digits u
  | Decimal.D5 u => 53 :: digits u
  | Decimal.D6 u => 54 :: digits u
  | Decimal.D7 u => 55 :: digits u
  | Decimal.D8 u => 56 :: digits u
  | Decimal.D9 u => 57 :: digits u
  end%N.

(** A non-negative integer below [10^21] is written in decimal. *)
Definition number (n : N) : str := digits (N.to_uint n).

Definition key (k : string) : str := QUOTE :: lit k ++ [QUOTE; 58%N].

Definition COMMA : str := [44%N].

(** One record: the own properties in creation order, a property whose
    value is [undefined] left out. *)
Definition stringify_record (m : ModelMetadata) : str :=
  lit "{" ++ key "filename" ++ quote (filename m) ++ COMMA ++
  key "format" ++ quote (format m) ++ COMMA ++
  key "downloadDate" ++ quote (downloadDate m) ++
  match size m with
  | Some n => COMMA ++ key "size" ++ number n
  | None => []
  end ++ lit "}".

Fixpoint stringify_elements (l : list ModelMetadata) : str :=
  match l with
  | [] => []
  | [m] => stringify_record m
  | m :: t => stringify_record m ++ COMMA ++ stringify_elements t
  end.

(** [JSON.stringify(modelMetadata)] *)
Definition stringify (l : list ModelMetadata) : str :=
  lit "[" ++ stringify_elements l ++ lit "]".

(** ** Reading the text back *)

Definition hex_value (d : char) : option N :=
  (if (48 <=? d) && (d <=? 57) then Some (d - 48)
   else if (97 <=? d) && (d <=? 102) then Some (d - 87)
   else if (65 <=? d) && (d <=? 70) then Some (d - 55)
   else None)%N.

Definition hex4 (a b c d : char) : option char :=
  match hex_value a, hex_value b, hex_value c, hex_value d with
  | Some x, Some y, Some z, Some w => Some (4096 * x + 256 * y + 16 * z + w)%N
  | _, _, _, _ => None
  end.

(** The character that follows a backslash, [u] apart. *)
Definition unescape (e : char) : option char :=
  (if e =? 34 then Some 34
   else if e =? 92 then Some 92
   else if e =? 47 then Some 47
   else if e =? 98 then Some 8
   else if e =? 102 then Some 12
   else if e =? 110 then Some 10
   else if e =? 114 then Some 13
   else if e =? 116 then Some 9
   else None)%N.

Definition push (c : char) (r : option (str * str)) : option (str * str) :=
  match r with
  | Some (s, rest) => Some (c :: s, rest)
  | None => None
  end.

(** A string, after its opening quote: the value and the text that
    follows the closing quote. *)
Fixpoint parse_string_body (s : str) : option (str * str) :=
  match s with
  | [] => None
  | c :: t =>
      if (c =? QUOTE)%N then Some ([], t)
      else if (c =? BACKSLASH)%N then
        match t with
        | [] => None
        | e :: t' =>
            if (e =? 117)%N then
              match t' with
              | h1 :: h2 :: h3 :: h4 :: t'' =>
                  match hex4 h1 h2 h3 h4 with
                  | Some u => push u (parse_string_body t'')
                  | None => None
                  end
              | _ => None
              end
            else
              match unescape e with
              | Some u => push u (parse_string_body t')
              | None => None
              end
        end
      else if (c <? 32)%N then None
      else push c (parse_string_body t)
  end.

Definition parse_string (s : str) : option (str * str) :=
  match s with
  | c :: t => if (c =? QUOTE)%N then parse_string_body t else None
  | [] => None
  end.

Definition digit_of (c : char) : option (Decimal.uint -> Decimal.uint) :=
  (if c =? 48 then Some Decimal.D0
   else if c =? 49 then Some Decimal.D1
   else if c =? 50 then Some Decimal.D2
   else if c =? 51 then Some Decimal.D3
   else if c =? 52 then Some Decimal.D4
   else if c =? 53 then Some Decimal.D5
   else if c =? 54 then Some Decimal.D6
   else if c =? 55 then Some Decimal.D7
   else if c =? 56 then Some Decimal.D8
   else if c =? 57 then Some Decimal.D9
   else None)%N.

(** The longest run of decimal digits at the start of [s]. *)
Fixpoint parse_digits (s : str) : Decimal.uint * str :=
  match s with
  | [] => (Decimal.Nil, [])
  | c :: t =>
      match digit_of c with
      | Some d => let '(u, rest) := parse_digits t in (d u, rest)
      | None => (Decimal.Nil, s)
      end
  end.

(** A number: the digits are read as the integer they write. That is the
    number [JSON.parse] yields for an integer up to [2^53 - 1], the sizes
    of a well-formed list; a larger integer it rounds to the nearest
    number, which is not followed here. *)
Definition parse_number (s : str) : option (N * str) :=
  match parse_digits s with
  | (Decimal.Nil, _) => None
  | (u, rest) => Some (N.of_uint u, rest)
  end.

(** [s] without the prefix [p], when it has it. *)
Definition expect (p s : str) : option str :=
  if startsWith p s then Some (skipn (length p) s) else None.

(** One record, with the properties in the order [stringify_record]
    writes them. *)
Definition parse_record (s : str) : option (ModelMetadata * str) :=
  match expect (lit "{" ++ key "filename") s with
  | None => None
  | Some s1 =>
  match parse_string s1 with
  | None => None
  | Some (fn, s2) =>
  match expect (COMMA ++ key "format") s2 with
  | None => None
  | Some s3 =>
  match parse_string s3 with
  | None => None
  | Some (fm, s4) =>
  match expect (COMMA ++ key "downloadDate") s4 with
  | None => None
  | Some s5 =>
  match parse_string s5 with
  | None => None
  | Some (dd, s6) =>
      match expect (lit "}") s6 with
      | Some s7 =>
          Some ({| filename := fn; format := fm; downloadDate := dd;
                   size := None |}, s7)
      | None =>
          match expect (COMMA ++ key "size") s6 with
          | None => None
          | Some s8 =>
              match parse_number s8 with
              | None => None
              | Some (n, s9) =>
                  match expect (lit "}") s9 with
                  | Some s10 =>
                      Some ({| filename := fn; format := fm;
                               downloadDate := dd; size := Some n |}, s10)
                  | None => None
                  end
              end
          end
      end
  end end end end end end.

(** The records of an array after the first one; [fuel] bounds the number
    of records read. *)
Fixpoint parse_more (fuel : nat) (s : str)
  : option (list ModelMetadata * str) :=
  match fuel with
  | O => None
  | S fuel' =>
      match expect (lit "]") s with
      | Some rest => Some ([], rest)
      | None =>
          match expect COMMA s with
          | None => None
          | Some s1 =>
              match parse_record s1 with
              | None => None
              | Some (m, s2) =>
                  match parse_more fuel' s2 with
                  | Some (l, rest) => Some (m :: l, rest)
                  | None => None
                  end
              end
          end
      end
  end.

(** [JSON.parse(metadataString) as ModelMetadata[]] on the texts that
    [JSON.stringify] writes for a metadata list: an array of records with
    the properties [filename], [format], [downloadDate] and, optionally,
    [size], in that order and without white space. Only such texts are
    covered: [None] is the answer for every other text, be it one on
    which the real function throws (and the [catch] of
    [loadModelMetadata] logs) or one that it accepts, such as the same
    list written with white space or with its properties in another
    order. The file is only ever written by [saveModelMetadata]. *)
Definition parse (s : str) : option (list ModelMetadata) :=
  match expect (lit "[") s with
  | None => None
  | Some s1 =>
      match expect (lit "]") s1 with
      | Some [] => Some []
      | Some (_ :: _) => None
      | None =>
          match parse_record s1 with
          | None => None
          | Some (m, s2) =>
              match parse_more (length s2) s2 with
              | Some (l, []) => Some (m :: l)
              | _ => None
              end
          end
      end
  end.

End Json.

(* ================================================================== *)
(** * The metadata list: persistence, reconciliation, download *)
(* ================================================================== *)

Module Meta.

(** ** Persistence *)

(** [saveModelMetadata]: [file] is the text of [model_metadata.json],
    [None] while the file does not exist; [written] tells whether
    [RNFS.writeFile] succeeded (a failure is logged). *)
Definition saveModelMetadata (written : bool) (m : list ModelMetadata)
  (file : option str) : option str :=
  if written then Some (Json.stringify m) else file.

(** The effect that depends on [modelMetadata]: it runs after every
    change of the list and saves it [if (modelMetadata.length > 0)]. *)
Definition persistEffect (written : bool) (m : list ModelMetadata)
  (file : option str) : option str :=
  if (0 <? length m)%nat then saveModelMetadata written m file else file.

(** A change of the list by the updater [f], followed by the effect. *)
Definition mutate (written : bool)
  (f : list ModelMetadata -> list ModelMetadata)
  (st : list ModelMetadata * option str) : list ModelMetadata * option str :=
  let m := f (fst st) in (m, persistEffect written m (snd st)).

(** [loadModelMetadata]: the list that it passes to [setModelMetadata];
    [None] when the file does not exist or [JSON.parse] throws, and the
    state keeps its value. *)
Definition loadModelMetadata (file : option str)
  : option (list ModelMetadata) :=
  match file with
  | Some metadataString => Json.parse metadataString
  | None => None
  end.

(** A well-formed list: the strings are sequences of 16-bit code units and
    the sizes are integers that a number holds exactly. *)
Definition MAX_SAFE_INTEGER : N := 9007199254740991%N.

Definition well_formed_str (s : str) : Prop :=
  Forall (fun c => (c < 65536)%N) s.

Definition well_formed (l : list ModelMetadata) : Prop :=
  Forall (fun m =>
            well_formed_str (filename m) /\ well_formed_str (format m) /\
            well_formed_str (downloadDate m) /\
            match size m with
            | Some n => (n <= MAX_SAFE_INTEGER)%N
            | None => True
            end) l.

(** The updater of [deleteModel], once the file is unlinked. *)
Definition removeRecord (name : str) (prev : list ModelMetadata)
  : list ModelMetadata :=
  filter (fun m => negb (str_eqb (filename m) name)) prev.

(** ** Array helpers *)

(** [l.findIndex(p)], [None] for [-1]. *)
Fixpoint findIndex {A} (p : A -> bool) (l : list A) : option nat :=
  match l with
  | [] => None
  | x :: t => if p x then Some 0%nat else option_map S (findIndex p t)
  end.

(** [l[i] = x] on a copy of [l], for [i] inside the array. *)
Fixpoint setAt {A} (i : nat) (x : A) (l : list A) : list A :=
  match l, i with
  | [], _ => []
  | _ :: t, O => x :: t
  | y :: t, S j => y :: setAt j x t
  end.

(** ** Reconciliation at startup *)

(** The file system as [checkDownloadedModels] sees it: the names that
    [RNFS.readDir] lists ([None]: it throws), the size that [RNFS.stat]
    reports for a name ([None]: it throws), and the
    [new Date().toISOString()] taken for a name. *)
Record Fs := {
  readDir : option (list str);
  stat : str -> option N;
  clock : str -> str;
}.

Definition LLAMA : str := lit "Llama-3.2-1B-Instruct".
Definition QWEN : str := lit "Qwen2-0.5B-Instruct".
Definition DEEPSEEK : str := lit "DeepSeek-R1-Distill-Qwen-1.5B".
Definition SMOLLM : str := lit "SmolLM2-1.7B-Instruct".

(** The format inferred from a file name. *)
Definition inferFormat (name : str) : str :=
  if includes (lit "Llama-3.2") name || includes (lit "llama-3.2") name
  then LLAMA
  else if includes (lit "Qwen2") name || includes (lit "qwen2") name
  then QWEN
  else if includes (lit "DeepSeek") name || includes (lit "deepseek") name
  then DEEPSEEK
  else if includes (lit "SmolLM") name || includes (lit "smollm") name
  then SMOLLM
  else Engine.UNKNOWN.

(** The inference of the format as a table: for each family the two
    spellings that are looked for, in the order in which they are tried. *)
Definition spellings : list (str * str * str) :=
  [ (lit "Llama-3.2", lit "llama-3.2", LLAMA);
    (lit "Qwen2", lit "qwen2", QWEN);
    (lit "DeepSeek", lit "deepseek", DEEPSEEK);
    (lit "SmolLM", lit "smollm", SMOLLM) ].

Definition formatBySpelling (name : str) : str :=
  match find (fun '(capital, small, _) =>
                includes capital name || includes small name) spellings with
  | Some (_, _, family) => family
  | None => Engine.UNKNOWN
  end.

(** Matching without regard to case, in the words of the specification:
    the pattern is looked for after both strings have been brought to
    lower case. *)
Definition toLowerCase (s : str) : str :=
  map (fun c => if (65 <=? c) && (c <=? 90) then c + 32 else c)%N s.

Definition includes_ignoring_case (p s : str) : bool :=
  includes (toLowerCase p) (toLowerCase s).

Definition newRecord (fs : Fs) (name : str) : ModelMetadata :=
  {| filename := name; format := inferFormat name;
     downloadDate := clock fs name; size := stat fs name |}.

Definition ggufFiles (files : list str) : list str :=
  filter (endsWith (lit ".gguf")) files.

(** [ggufFiles.filter(file => !existingFilenames.includes(file))] *)
Definition newFiles (files : list str) (seen : list ModelMetadata)
  : list str :=
  filter (fun file => negb (existsb (str_eqb file) (map filename seen)))
         (ggufFiles files).

(** [checkDownloadedModels]. [seen] is the [modelMetadata] that the
    function reads, the one of the render that created it; the updater
    [prev => [...prev, ...newMetadata]] is applied to the list of the
    state [a] in which the function ends. *)
Definition checkDownloadedModels (fs : Fs) (seen : list ModelMetadata)
  (a : App) : App :=
  match readDir fs with
  | None => a
  | Some files =>
      let a1 := setDownloadedModels (ggufFiles files) a in
      let new := newFiles files seen in
      if (0 <? length new)%nat then
        setModelMetadata (modelMetadata a1 ++ map (newRecord fs) new) a1
      else a1
  end.

(** The effect [useEffect(() => { ... checkDownloadedModels(); }, [])]
    has no dependencies: it runs once, after the first render, and the
    [modelMetadata] it reads is the one of that render, the initial value
    of the cell. *)
Definition reconcileEffect (fs : Fs) (a : App) : App :=
  checkDownloadedModels fs (modelMetadata initial_App) a.

(** A start of the application in which [loadModelMetadata] has set the
    list before the updater of [checkDownloadedModels] is applied: the
    state after both effects, and the metadata file after the save effect
    has run on it. *)
Definition startup (fs : Fs) (file : option str) : App * option str :=
  let a1 := match loadModelMetadata file with
            | Some metadata => setModelMetadata metadata initial_App
            | None => initial_App
            end in
  let a2 := reconcileEffect fs a1 in
  (a2, persistEffect true (modelMetadata a2) file).

(** A documents directory with one model file of 500 bytes. *)
Definition one_model : Fs :=
  {| readDir := Some [lit "qwen2-instruct-q4.gguf"; lit "notes.txt"];
     stat := fun _ => Some 500%N;
     clock := fun _ => lit "2025-01-01T00:00:00.000Z" |}.

Definition one_record : ModelMetadata :=
  {| filename := lit "qwen2-instruct-q4.gguf"; format := QWEN;
     downloadDate := lit "2025-01-01T00:00:00.000Z"; size := Some 500%N |}.

(** ** Download *)

(** A fraction reported by the transfer, in percent. *)
Definition Progress := N.

(** What [handleDownloadModel] meets: the answer of [checkFileExists],
    the size that [RNFS.stat] reports for the existing file ([None]: it
    throws), the calls of the first [loadModel], the run of
    [downloadModel] (the fractions it passes to its callback, and whether
    it then resolves), the size of the downloaded file, the time, and the
    calls of the second [loadModel]. *)
Record Download := {
  fileExists : bool;
  statExisting : option N;
  loadExisting : Engine.Calls;
  reported : list Progress;
  transferred : bool;
  statDownloaded : option N;
  now : str;
  loadDownloaded : Engine.Calls;
}.

(** What the user and the transfer layer observe of one run. *)
Inductive Event :=
| Transfer (file : str)
| ProgressCallback (p : Progress)
| AlertAlreadyExists
| AlertSuccess
| AlertDownloadFailed.

(** [!m.size]: the size is [undefined] or [0]. *)
Definition noSize (m : ModelMetadata) : bool :=
  match size m with
  | None => true
  | Some n => (n =? 0)%N
  end.

(** The updater for an existing file: the size is filled in when the
    record has none. *)
Definition backfill (file : str) (sz : N) (prevMetadata : list ModelMetadata)
  : list ModelMetadata :=
  match findIndex (fun m => str_eqb (filename m) file) prevMetadata with
  | Some existingIndex =>
      match nth_error prevMetadata existingIndex with
      | Some m =>
          if noSize m then
            setAt existingIndex
              {| filename := filename m; format := format m;
                 downloadDate := downloadDate m; size := Some sz |}
              prevMetadata
          else prevMetadata
      | None => prevMetadata
      end
  | None => prevMetadata
  end.

(** The updater after a download: the record replaces the one of the same
    file name, or is appended. *)
Definition upsert (file : str) (newMetadata : ModelMetadata)
  (prevMetadata : list ModelMetadata) : list ModelMetadata :=
  match findIndex (fun m => str_eqb (filename m) file) prevMetadata with
  | Some i => setAt i newMetadata prevMetadata
  | None => prevMetadata ++ [newMetadata]
  end.

(** The part of [handleDownloadModel] inside [try]. [seenContext] is the
    [context] of the render that created the handler, which its
    [loadModel] reads. *)
Definition download (d : Download) (file : str)
  (seen : list ModelMetadata) (seenContext : option Handle) (a : App)
  : list Event * App :=
  let called := Transfer file :: map ProgressCallback (reported d) in
  if transferred d then
    match statDownloaded d with
    | None => (called ++ [AlertDownloadFailed], a)
    | Some fileSize =>
        let newMetadata :=
          {| filename := file; format := selectedModelFormat a;
             downloadDate := now d; size := Some fileSize |} in
        let a1 := setModelMetadata (upsert file newMetadata (modelMetadata a)) a in
        let a2 :=
          setDownloadedModels
            (if existsb (str_eqb file) (downloadedModels a1)
             then downloadedModels a1
             else downloadedModels a1 ++ [file]) a1 in
        (called ++ [AlertSuccess],
         Engine.after
           (Engine.loadModelFrom seenContext (loadDownloaded d) file seen a2)
           a2)
    end
  else (called ++ [AlertDownloadFailed], a).

(** [handleDownloadModel(file)], called from the current render: [seen] is
    the [modelMetadata] of that render, and the [context] that both calls
    of [loadModel] read is the one of the state in which the handler
    starts. *)
Definition handleDownloadModel (d : Download) (file : str)
  (seen : list ModelMetadata) (a : App) : list Event * App :=
  if fileExists d then
    let a1 := match statExisting d with
              | Some sz => setModelMetadata (backfill file sz (modelMetadata a)) a
              | None => a
              end in
    let run := Engine.loadModel (loadExisting d) file seen a1 in
    let a2 := Engine.after run a1 in
    if snd run then ([AlertAlreadyExists], a2)
    else download d file seen (context a) a2
  else download d file seen (context a) a.

(** An existing file of 500 bytes that the engine loads. *)
Definition present_file : Download :=
  {| fileExists := true; statExisting := Some 500%N;
     loadExisting := {| Engine.released := true; Engine.init := Some 1%nat |};
     reported := []; transferred := false; statDownloaded := None;
     now := lit "2025-01-02T00:00:00.000Z";
     loadDownloaded := {| Engine.released := true; Engine.init := None |} |}.

(** An existing file that the engine refuses, and a transfer that then
    succeeds. *)
Definition refused_file : Download :=
  {| fileExists := true; statExisting := Some 500%N;
     loadExisting := {| Engine.released := true; Engine.init := None |};
     reported := [50; 100]%N; transferred := true;
     statDownloaded := Some 500%N;
     now := lit "2025-01-02T00:00:00.000Z";
     loadDownloaded := {| Engine.released := true; Engine.init := Some 1%nat |} |}.

(** The record of [one_model] before its size is known. *)
Definition unsized_record : ModelMetadata :=
  {| filename := lit "qwen2-instruct-q4.gguf"; format := QWEN;
     downloadDate := lit "2025-01-01T00:00:00.000Z"; size := None |}.

End Meta.

(* ================================================================== *)
(** * Leaving the conversation, and the reasoning toggle *)
(* ================================================================== *)

Module Session.

(** [handleBackToModelSelection]. [releaseAllLlama()] is called without
    [await]: [released] tells whether it destroys the contexts. *)
Definition handleBackToModelSelection (released : bool) (a : App) : App :=
  let a1 := setContext None a in
  let a2 := if released then setEngine [] a1 else a1 in
  let a3 := setConversation INITIAL_CONVERSATION a2 in
  setTokensPerSecond [] a3.

(** [!msg.showThought]: an absent field counts as [false]. *)
Definition flipped (m : Message) : Message :=
  {| role := role m; content := content m; thought := thought m;
     showThought :=
       Some (negb (match showThought m with Some b => b | None => false end)) |}.

(** [prev.map((msg, index) => index === messageIndex ? ... : msg)], with
    [index] counted from [from]. *)
Fixpoint toggleFrom (from messageIndex : nat) (prev : list Message)
  : list Message :=
  match prev with
  | [] => []
  | msg :: rest =>
      (if Nat.eqb from messageIndex then flipped msg else msg)
      :: toggleFrom (S from) messageIndex rest
  end.

(** The updater of [toggleThought(messageIndex)]. *)
Definition toggleThought (messageIndex : nat) (prev : list Message)
  : list Message :=
  toggleFrom 0 messageIndex prev.

(** The log has its system turn and, for every sample, one user turn and
    one assistant turn. *)
Definition in_step (a : App) : Prop :=
  length (conversation a) = S (2 * length (tokensPerSecond a)).

(** The turn in flight shows what the closure variables of the callback
    hold. *)
Definition published (sm : Chat.Stream * Message) : Prop :=
  content (snd sm) =
  trim (replace_think (Chat.currentAssistantMessage (fst sm))).

End Session.

(* ================================================================== *)
(** * The model lists of the selection page *)
(* ================================================================== *)

Module Catalog.

(** The text in the file, when there is one, is that of a non-empty
    list. *)
Definition holds_records (file : option str) : Prop :=
  match file with
  | None => True
  | Some text => exists m l, text = Json.stringify (m :: l)
  end.


(** [fetchAvailableGGUFs(modelFormat)] and the body of
    [handleFormatSelection(format)]: the list passed to
    [setAvailableGGUFs]. [response] holds the [rfilename] of every
    sibling in the answer of the registry; [None] when the request or the
    reading of the answer throws, and the [catch] falls back on the
    records of the format. *)
Definition fetchAvailableGGUFs (response : option (list str))
  (modelFormat : str) (a : App) : list str :=
  match response with
  | Some rfilenames => filter (endsWith (lit ".gguf")) rfilenames
  | None =>
      map filename
        (filter (fun model => str_eqb (format model) modelFormat)
           (modelMetadata a))
  end.

(** [getModelFormatInfo(filename)] *)
Definition getModelFormatInfo (name : str) (a : App) : str :=
  match find (fun m => str_eqb (filename m) name) (modelMetadata a) with
  | Some modelMeta => format modelMeta
  | None => Engine.UNKNOWN
  end.

(** [modelMeta?.size], the argument that [getModelSize(filename)] gives
    to [formatFileSize]. *)
Definition modelSize (name : str) (a : App) : option N :=
  match find (fun m => str_eqb (filename m) name) (modelMetadata a) with
  | Some modelMeta => size modelMeta
  | None => None
  end.

(** [deleteModel(filename)]: [present] is the answer of [RNFS.exists],
    [confirmed] tells whether the user pressed Delete in the alert, and
    [unlinked] whether [RNFS.unlink] succeeded. *)
Definition deleteModel (present confirmed unlinked : bool) (name : str)
  (a : App) : App :=
  if present && confirmed && unlinked then
    let a1 := setModelMetadata (Meta.removeRecord name (modelMetadata a)) a in
    setDownloadedModels
      (filter (fun m => negb (str_eqb m name)) (downloadedModels a1)) a1
  else a.

(** The labels of [modelFormats]. *)
Definition modelFormats : list str :=
  [Meta.LLAMA; Meta.QWEN; Meta.DEEPSEEK; Meta.SMOLLM].

(** The records listed under [format.label] in the section of the
    downloaded models. *)
Definition modelsInFormat (label : str) (a : App) : list ModelMetadata :=
  filter (fun m => str_eqb (format m) label &&
                   existsb (str_eqb (filename m)) (downloadedModels a))
         (modelMetadata a).

(** The section of the downloaded models: shown when no format is
    selected and some model is downloaded, one group for each format that
    has a record, in the order of [modelFormats]. *)
Definition downloadedGroups (a : App) : list (str * list ModelMetadata) :=
  match selectedModelFormat a, downloadedModels a with
  | [], _ :: _ =>
      filter (fun g => negb (Nat.eqb (length (snd g)) 0))
        (map (fun label => (label, modelsInFormat label a)) modelFormats)
  | _, _ => []
  end.

(** The record that reconciliation makes for a file of no known family. *)
Definition stray_record : ModelMetadata :=
  {| filename := lit "mistral-7b.gguf"; format := Engine.UNKNOWN;
     downloadDate := lit "2025-01-01T00:00:00.000Z"; size := Some 500%N |}.

End Catalog.

(* ================================================================== *)
(** * Facts about the string primitives *)
(* ================================================================== *)

Section StringFacts.

Lemma skipn_plus_app (a s : str) (n : nat) :
  skipn (length a + n) (a ++ s) = skipn n s.
Proof. induction a; simpl; auto. Qed.

Lemma skipn_length_app (a s : str) : skipn (length a) (a ++ s) = s.
Proof. induction a; simpl; auto. Qed.

Lemma startsWith_app (p s : str) : startsWith p (p ++ s) = true.
Proof.
  induction p as [|x p IH]; simpl; [reflexivity|].
  now rewrite N.eqb_refl, IH.
Qed.

Lemma startsWith_split (p s : str) :
  startsWith p s = true -> s = p ++ skipn (length p) s.
Proof.
  revert s; induction p as [|x p IH]; intros [|y s]; simpl; try easy.
  intros H. apply andb_true_iff in H as [Hxy Hp].
  apply N.eqb_eq in Hxy. subst y. f_equal. now apply IH.
Qed.

Lemma indexOf_split (p s : str) (i : nat) :
  indexOf p s = Some i ->
  s = firstn i s ++ p ++ skipn (i + length p) s /\ (i <= length s)%nat.
Proof.
  revert i; induction s as [|c t IH]; intros i; simpl.
  - destruct (startsWith p []) eqn:E; [|discriminate].
    intros [= <-]. split; [|lia]. now apply startsWith_split in E.
  - destruct (startsWith p (c :: t)) eqn:E.
    + intros [= <-]. split; [|lia]. now apply startsWith_split in E.
    + destruct (indexOf p t) as [j|]; simpl; [|discriminate].
      intros [= <-]. destruct (IH j eq_refl) as [IH1 IH2].
      split; [|lia]. simpl. now rewrite <- IH1.
Qed.

Lemma indexOf_prefix (p s : str) : indexOf p (p ++ s) = Some 0%nat.
Proof.
  destruct (p ++ s) eqn:E; simpl; rewrite <- ?E, startsWith_app; reflexivity.
Qed.

Lemma includes_intro (p a b : str) : includes p (a ++ p ++ b) = true.
Proof.
  unfold includes. induction a as [|y a IH].
  - simpl. now rewrite indexOf_prefix.
  - simpl. destruct (startsWith p (y :: a ++ p ++ b)); [reflexivity|].
    destruct (indexOf p (a ++ p ++ b)); [reflexivity|discriminate].
Qed.

Lemma includes_prefix (p s : str) : includes p (p ++ s) = true.
Proof. apply (includes_intro p [] s). Qed.

Lemma includes_elim (p s : str) :
  includes p s = true -> exists a b, s = a ++ p ++ b.
Proof.
  unfold includes. destruct (indexOf p s) as [i|] eqn:E; [|discriminate].
  intros _. apply indexOf_split in E as [E _]. eauto.
Qed.

(** A string without [p] has no part with [p]. *)
Lemma includes_false_part (p a s b : str) :
  includes p (a ++ s ++ b) = false -> includes p s = false.
Proof.
  intros H. destruct (includes p s) eqn:E; [|reflexivity].
  apply includes_elim in E as (a' & b' & ->).
  rewrite <- H. symmetry.
  replace (a ++ (a' ++ p ++ b') ++ b) with ((a ++ a') ++ p ++ (b' ++ b))
    by (now rewrite <- !app_assoc).
  apply includes_intro.
Qed.

Lemma includes_false_l (p a b : str) :
  includes p (a ++ b) = false -> includes p a = false.
Proof.
  intros H. apply (includes_false_part p [] a b). exact H.
Qed.

Lemma includes_false_r (p a b : str) :
  includes p (a ++ b) = false -> includes p b = false.
Proof.
  intros H. apply (includes_false_part p a b []). now rewrite app_nil_r.
Qed.

Lemma includes_false_tl (p : str) (c : char) (t : str) :
  includes p (c :: t) = false -> includes p t = false.
Proof. apply (includes_false_r p [c] t). Qed.

Lemma includes_false_startsWith (p s : str) :
  includes p s = false -> startsWith p s = false.
Proof.
  unfold includes. destruct s; simpl; destruct (startsWith p _); easy.
Qed.

Lemma replace_absent (p r s : str) : includes p s = false -> replace p r s = s.
Proof.
  unfold includes, replace. now destruct (indexOf p s).
Qed.

Lemma replace_prefix (p s : str) : replace p [] (p ++ s) = s.
Proof.
  unfold replace. rewrite indexOf_prefix. simpl.
  apply skipn_length_app.
Qed.

(** [q] starts a string that goes on with [h] after [u]: then [q] starts
    [u] already, or [h] occurs in [q]. *)
Lemma startsWith_reach (q u : str) (h : char) (v : str) :
  startsWith q (u ++ h :: v) = true -> startsWith q u = true \/ In h q.
Proof.
  revert q; induction u as [|w u IH]; intros [|z q]; simpl; auto.
  - intros H. apply andb_true_iff in H as [H _].
    apply N.eqb_eq in H. auto.
  - intros H. apply andb_true_iff in H as [Hzw H].
    rewrite Hzw. simpl. destruct (IH _ H); auto.
Qed.

(** A pattern whose first code unit does not come back in it cannot
    overlap a later occurrence of itself. *)
Lemma startsWith_shifted (h : char) (p x c : str) :
  ~ In h p -> x <> [] -> includes (h :: p) x = false ->
  startsWith (h :: p) (x ++ (h :: p) ++ c) = false.
Proof.
  intros Hh Hx Hinc. destruct x as [|y x]; [easy|].
  apply includes_false_startsWith in Hinc. simpl in *.
  destruct (N.eqb h y); [|reflexivity]. simpl in *.
  destruct (startsWith p (x ++ h :: p ++ c)) eqn:E; [|reflexivity].
  apply startsWith_reach in E as [E|E]; [congruence|contradiction].
Qed.

Lemma indexOf_first (h : char) (p b c : str) :
  ~ In h p -> includes (h :: p) b = false ->
  indexOf (h :: p) (b ++ (h :: p) ++ c) = Some (length b).
Proof.
  intros Hh. induction b as [|y b IH]; intros Hinc.
  - apply (indexOf_prefix (h :: p)).
  - change (indexOf (h :: p) ((y :: b) ++ (h :: p) ++ c))
      with (if startsWith (h :: p) ((y :: b) ++ (h :: p) ++ c) then Some 0%nat
            else option_map S (indexOf (h :: p) (b ++ (h :: p) ++ c))).
    rewrite startsWith_shifted by easy.
    rewrite IH by (now apply includes_false_tl in Hinc). reflexivity.
Qed.

Lemma includes_rev (p s : str) :
  includes p s = true -> includes (rev p) (rev s) = true.
Proof.
  intros H. apply includes_elim in H as (a & b & ->).
  rewrite !rev_app_distr, <- app_assoc. apply includes_intro.
Qed.

(** ** Trimming *)

Lemma trimStart_includes (h : char) (p s : str) :
  is_ws h = false -> includes (h :: p) s = true ->
  includes (h :: p) (trimStart s) = true.
Proof.
  intros Hh. induction s as [|c t IH]; [easy|].
  simpl. destruct (is_ws c) eqn:Hc; [|easy].
  intros H. apply IH. revert H. unfold includes. simpl.
  destruct (N.eqb_spec h c) as [->|_]; [congruence|]. simpl.
  now destruct (indexOf (h :: p) t).
Qed.

Lemma trimEnd_includes (h : char) (p q s : str) :
  rev q = h :: p -> is_ws h = false -> includes q s = true ->
  includes q (trimEnd s) = true.
Proof.
  intros Hq Hh H. unfold trimEnd.
  apply includes_rev in H. rewrite Hq in H.
  apply trimStart_includes in H; [|exact Hh]. apply includes_rev in H.
  now rewrite <- Hq, rev_involutive in H.
Qed.

(** ** The regular expression *)

Lemma OPEN_cons : OPEN = 60%N :: lit "think>".
Proof. reflexivity. Qed.

Lemma CLOSE_cons : CLOSE = 60%N :: lit "/think>".
Proof. reflexivity. Qed.

Lemma OPEN_head : ~ In 60%N (lit "think>").
Proof. intros H. simpl in H. repeat destruct H as [H|H]; easy. Qed.

Lemma CLOSE_head : ~ In 60%N (lit "/think>").
Proof. intros H. simpl in H. repeat destruct H as [H|H]; easy. Qed.

Lemma indexOf_OPEN_first (b c : str) :
  includes OPEN b = false -> indexOf OPEN (b ++ OPEN ++ c) = Some (length b).
Proof. rewrite OPEN_cons. apply indexOf_first, OPEN_head. Qed.

Lemma indexOf_CLOSE_first (b c : str) :
  includes CLOSE b = false ->
  indexOf CLOSE (b ++ CLOSE ++ c) = Some (length b).
Proof. rewrite CLOSE_cons. apply indexOf_first, CLOSE_head. Qed.

Lemma replace_think_from_skip (k : nat) (s : str) :
  replace_think_from k s = replace_think (skipn k s).
Proof.
  revert k; induction s as [|c t IH]; intros [|k]; try reflexivity.
  simpl. apply IH.
Qed.

Lemma replace_think_cons (c : char) (t : str) :
  replace_think (c :: t) =
  match match_think (c :: t) with
  | Some len => replace_think (skipn len (c :: t))
  | None => c :: replace_think t
  end.
Proof.
  unfold replace_think at 1. cbn [replace_think_from].
  destruct (match_think (c :: t)) as [len|] eqn:E; [|reflexivity].
  rewrite replace_think_from_skip. f_equal.
  unfold match_think in E. destruct (startsWith OPEN (c :: t)); [|easy].
  destruct (indexOf CLOSE _); [|easy]. injection E as <-. reflexivity.
Qed.

(** Without a closing marker nothing is removed. *)
Lemma replace_think_unclosed (s : str) :
  includes CLOSE s = false -> replace_think s = s.
Proof.
  induction s as [|c t IH]; [reflexivity|]. intros H.
  rewrite replace_think_cons.
  assert (E : match_think (c :: t) = None).
  { unfold match_think. destruct (startsWith OPEN (c :: t)); [|easy].
    rewrite <- (firstn_skipn (length OPEN) (c :: t)) in H.
    apply includes_false_r in H. unfold includes in H.
    now destruct (indexOf CLOSE _). }
  rewrite E, IH; [reflexivity|]. now apply includes_false_tl in H.
Qed.

(** Without an opening marker nothing is removed. *)
Lemma replace_think_unopened (s : str) :
  includes OPEN s = false -> replace_think s = s.
Proof.
  induction s as [|c t IH]; [reflexivity|]. intros H.
  rewrite replace_think_cons. unfold match_think.
  rewrite (includes_false_startsWith _ _ H), IH; [reflexivity|].
  now apply includes_false_tl in H.
Qed.

(** The first marker pair of a string is removed with what it encloses,
    and the scan goes on behind it. *)
Lemma replace_think_pair (x b c : str) :
  includes OPEN x = false -> includes CLOSE b = false ->
  replace_think (x ++ OPEN ++ b ++ CLOSE ++ c) = x ++ replace_think c.
Proof.
  intros Hx Hb. induction x as [|y x IH].
  - cbn [app]. destruct (OPEN ++ b ++ CLOSE ++ c) as [|z t] eqn:E; [easy|].
    rewrite replace_think_cons, <- E. unfold match_think.
    rewrite startsWith_app, skipn_length_app.
    rewrite indexOf_CLOSE_first by easy. f_equal.
    rewrite <- Nat.add_assoc, !skipn_plus_app. apply skipn_length_app.
  - cbn [app]. rewrite replace_think_cons.
    assert (E : match_think (y :: x ++ OPEN ++ b ++ CLOSE ++ c) = None).
    { unfold match_think.
      change (y :: x ++ OPEN ++ b ++ CLOSE ++ c)
        with ((y :: x) ++ OPEN ++ b ++ CLOSE ++ c).
      rewrite OPEN_cons.
      rewrite startsWith_shifted; [reflexivity|apply OPEN_head|easy|].
      exact Hx. }
    rewrite E, IH; [reflexivity|]. now apply includes_false_tl in Hx.
Qed.

End StringFacts.

(* ================================================================== *)
(** * The token callback *)
(* ================================================================== *)

Section StreamFacts.

Import Chat.

Lemma update_last_app (f : Message -> Message) (l : list Message) (m : Message) :
  update_last f (l ++ [m]) = Some (l ++ [f m]).
Proof.
  induction l as [|x l IH]; [reflexivity|].
  change (update_last f ((x :: l) ++ [m]))
    with (match l ++ [m] with
          | [] => Some [f x]
          | _ :: _ => option_map (cons x) (update_last f (l ++ [m]))
          end).
  rewrite IH. destruct (l ++ [m]) eqn:E; [now destruct l|reflexivity].
Qed.

(** On a log that ends with the turn in flight the callback rewrites that
    turn and nothing else. *)
Lemma onToken_last (s : Stream) (l : list Message) (m : Message) (token : str) :
  onToken (s, l ++ [m]) token =
  Some (nextStream s token, l ++ [nextTurn s m token]).
Proof.
  unfold onToken, nextStream, nextTurn, closes.
  destruct (includes OPEN token); [|destruct (includes CLOSE token);
    [|destruct (inThinkBlock s)]];
    cbn [negb andb]; repeat (rewrite update_last_app; cbn beta iota);
    reflexivity.
Qed.

Lemma onTokens_last (tokens : list str) :
  forall s l m,
    onTokens (s, l ++ [m]) tokens =
    Some (fst (steps (s, m) tokens), l ++ [snd (steps (s, m) tokens)]).
Proof.
  induction tokens as [|t ts IH]; intros s l m; [reflexivity|].
  cbn [onTokens]. rewrite onToken_last. apply IH.
Qed.

Lemma steps_snoc (sm : Stream * Message) (ts : list str) (t : str) :
  steps sm (ts ++ [t]) = step (steps sm ts) t.
Proof. unfold steps. now rewrite fold_left_app. Qed.

Lemma steps_app (sm : Stream * Message) (ts us : list str) :
  steps sm (ts ++ us) = steps (steps sm ts) us.
Proof. unfold steps. now rewrite fold_left_app. Qed.

Lemma steps_cons (sm : Stream * Message) (t : str) (ts : list str) :
  steps sm (t :: ts) = steps (step sm t) ts.
Proof. reflexivity. Qed.

Lemma steps_message (ts : list str) :
  forall sm,
    currentAssistantMessage (fst (steps sm ts)) =
    currentAssistantMessage (fst sm) ++ concat ts.
Proof.
  induction ts as [|t ts IH]; intros sm.
  - simpl. now rewrite app_nil_r.
  - rewrite steps_cons, IH. simpl. now rewrite <- app_assoc.
Qed.

(** After every token the visible content is the whole text received so
    far, without its closed marker pairs, trimmed. *)
Lemma steps_content (sm : Stream * Message) (ts : list str) :
  ts <> [] ->
  content (snd (steps sm ts)) =
  trim (replace_think (currentAssistantMessage (fst sm) ++ concat ts)).
Proof.
  intros H. destruct (exists_last H) as (us & t & ->).
  rewrite steps_snoc. simpl. rewrite steps_message.
  now rewrite concat_app, <- app_assoc; simpl; rewrite app_nil_r.
Qed.

(** Only a token that takes the closing branch sets the reasoning. *)
Lemma steps_thought_kept (ts : list str) :
  forall sm,
    Forall (fun t => closes t = false) ts ->
    thought (snd (steps sm ts)) = thought (snd sm).
Proof.
  induction ts as [|t ts IH]; intros sm H; [reflexivity|].
  inversion H as [|? ? Ht Hts]; subst.
  rewrite steps_cons, IH by assumption. simpl. now rewrite Ht.
Qed.

(** Inside a block, tokens without a whole marker are collected. *)
Lemma steps_inside (ts : list str) :
  forall sm,
    inThinkBlock (fst sm) = true ->
    Forall (fun t => includes OPEN t = false) ts ->
    Forall (fun t => includes CLOSE t = false) ts ->
    inThinkBlock (fst (steps sm ts)) = true /\
    currentThought (fst (steps sm ts)) = currentThought (fst sm) ++ concat ts.
Proof.
  induction ts as [|t ts IH]; intros sm Hin Ho Hc.
  - simpl. now rewrite app_nil_r.
  - inversion Ho as [|? ? Ho1 Ho2]; inversion Hc as [|? ? Hc1 Hc2]; subst.
    rewrite steps_cons.
    destruct (IH (step sm t)) as [IH1 IH2]; try assumption.
    + simpl. now rewrite Ho1, Hc1.
    + split; [assumption|]. rewrite IH2. simpl.
      now rewrite Ho1, Hc1, Hin, <- app_assoc.
Qed.

Lemma includes_false_concat (p : str) (l : list str) :
  includes p (concat l) = false -> Forall (fun f => includes p f = false) l.
Proof.
  induction l as [|f l IH]; intros H; constructor.
  - now apply includes_false_l in H.
  - apply IH. now apply includes_false_r in H.
Qed.

Lemma closes_false (t : str) : includes CLOSE t = false -> closes t = false.
Proof. unfold closes. intros ->. apply andb_false_r. Qed.

End StreamFacts.

(* ================================================================== *)
(** * The reasoning markers in the token stream *)
(* ================================================================== *)

Section Reasoning.

Import Chat.

(** C1, as stated, fails: on the fragments of the example scenario both
    markers are split across fragments, no fragment takes a marker branch
    of the callback, and the turn ends with the visible content
    [Hello  world] but without any reasoning. *)
Lemma split_markers_leave_reasoning_unset :
  exists s m,
    onTokens (start, INITIAL_CONVERSATION ++ [placeholder]) split_fragments
    = Some (s, INITIAL_CONVERSATION ++ [m]) /\
    content m = lit "Hello  world" /\
    thought m = None /\
    thought m <> Some (lit "planning").
Proof.
  rewrite onTokens_last. do 2 eexists. split; [reflexivity|].
  repeat split; try (vm_compute; reflexivity). vm_compute. discriminate.
Qed.

(** Outside a block, as long as no fragment holds the whole opening
    marker, nothing is collected. *)
Lemma steps_outside (ts : list str) :
  forall sm,
    inThinkBlock (fst sm) = false -> currentThought (fst sm) = [] ->
    Forall (fun t => includes OPEN t = false) ts ->
    inThinkBlock (fst (steps sm ts)) = false /\
    currentThought (fst (steps sm ts)) = [].
Proof.
  induction ts as [|t ts IH]; intros sm Hin Hct Ho; [now split|].
  inversion Ho as [|? ? Ho1 Ho2]; subst. rewrite steps_cons.
  apply IH; [| |assumption]; simpl; rewrite Ho1;
    destruct (includes CLOSE t); try reflexivity; now rewrite Hin.
Qed.

(** C1, amended. The callback keeps no partial marker between fragments:
    it looks for each marker inside one fragment.
    - For every sequence of fragments, the visible content after the last
      one is the trimmed concatenation without its closed marker pairs,
      however the markers are split; the first pair of a text is removed
      with what it encloses.
    - The reasoning is set only by a fragment that holds the whole
      closing marker and not the whole opening one: when no fragment
      does, no reasoning is published.
    - When such a fragment comes and no fragment before it holds the
      whole opening marker, the reasoning published is the empty text.
    - When the opening marker starts one fragment and the closing marker
      starts a later one that holds no whole opening marker, no fragment
      between them holds a whole opening marker, the text between the two
      markers holds no closing marker, whole or split, and no later
      fragment holds the whole closing marker without the whole opening
      one, the reasoning is the text between the markers, trimmed.
    - The fragments of the example scenario give the visible content
      [Hello  world] and no reasoning. *)
Theorem reasoning_of_whole_markers :
  (forall (l : list Message) (fragments : list str),
      exists s m,
        onTokens (start, l ++ [placeholder]) fragments = Some (s, l ++ [m]) /\
        content m = trim (replace_think (concat fragments))) /\
  (forall before between behind : str,
      includes OPEN before = false -> includes CLOSE between = false ->
      replace_think (before ++ OPEN ++ between ++ CLOSE ++ behind)
      = before ++ replace_think behind) /\
  (forall (l : list Message) (fragments : list str),
      Forall (fun f => closes f = false) fragments ->
      exists s m,
        onTokens (start, l ++ [placeholder]) fragments = Some (s, l ++ [m]) /\
        thought m = None) /\
  (forall (l : list Message) (pre : list str) (closing : str)
          (post : list str),
      Forall (fun f => includes OPEN f = false) pre ->
      closes closing = true ->
      Forall (fun f => closes f = false) post ->
      exists s m,
        onTokens (start, l ++ [placeholder]) (pre ++ [closing] ++ post)
        = Some (s, l ++ [m]) /\
        thought m = Some []) /\
  (forall (l : list Message) (pre : list str) (rest : str) (mid : list str)
          (tail : str) (post : list str),
      Forall (fun f => includes OPEN f = false) mid ->
      includes CLOSE (rest ++ concat mid) = false ->
      includes OPEN (CLOSE ++ tail) = false ->
      Forall (fun f => closes f = false) post ->
      exists s m,
        onTokens (start, l ++ [placeholder])
          (pre ++ [OPEN ++ rest] ++ mid ++ [CLOSE ++ tail] ++ post)
        = Some (s, l ++ [m]) /\
        thought m = Some (trim (rest ++ concat mid))) /\
  (exists s m,
      onTokens (start, INITIAL_CONVERSATION ++ [placeholder]) split_fragments
      = Some (s, INITIAL_CONVERSATION ++ [m]) /\
      content m = lit "Hello  world" /\ thought m = None).
Proof.
  split; [|split; [exact replace_think_pair|split; [|split; [|split]]]].
  - intros l fragments. rewrite onTokens_last. do 2 eexists.
    split; [reflexivity|].
    destruct fragments as [|f fs]; [reflexivity|].
    now rewrite steps_content.
  - intros l fragments H. rewrite onTokens_last. do 2 eexists.
    split; [reflexivity|]. now rewrite steps_thought_kept.
  - intros l pre closing post Hpre Hcl Hpost.
    rewrite onTokens_last. do 2 eexists. split; [reflexivity|].
    rewrite steps_app, (steps_app _ [closing]).
    rewrite steps_thought_kept by assumption.
    destruct (steps_outside pre (start, placeholder) eq_refl eq_refl Hpre)
      as [_ Hct].
    cbn [steps fold_left step snd nextTurn thought].
    fold (steps (start, placeholder) pre). now rewrite Hcl, Hct.
  - intros l pre rest mid tail post Hmid Hclose Htail Hpost.
    rewrite onTokens_last. do 2 eexists. split; [reflexivity|].
    rewrite steps_app, (steps_app _ [OPEN ++ rest]), (steps_app _ mid),
      (steps_app _ [CLOSE ++ tail]).
    rewrite steps_thought_kept by assumption.
    set (sm1 := steps (start, placeholder) pre).
    set (sm2 := steps sm1 [OPEN ++ rest]).
    assert (H2 : inThinkBlock (fst sm2) = true /\ currentThought (fst sm2) = rest).
    { subst sm2. cbn [steps fold_left step fst nextStream inThinkBlock
                      currentThought].
      rewrite includes_prefix. split; [reflexivity|].
      apply replace_prefix. }
    destruct H2 as [Hin Hct].
    destruct (@steps_inside mid sm2 Hin Hmid) as [_ H3].
    { apply includes_false_concat. now apply includes_false_r in Hclose. }
    cbn [steps fold_left step snd nextTurn thought].
    unfold closes. rewrite Htail, includes_prefix.
    cbn [negb andb]. fold (steps sm2 mid). rewrite H3, Hct.
    now rewrite replace_absent.
  - rewrite onTokens_last. do 2 eexists. split; [reflexivity|].
    split; vm_compute; reflexivity.
Qed.

Lemma reasoning_of_whole_markers_witness :
  Forall (fun f => includes OPEN f = false) [lit "ning"] /\
  includes CLOSE (lit "plan" ++ concat [lit "ning"]) = false /\
  includes OPEN (CLOSE ++ lit " world") = false /\
  Forall (fun f => closes f = false) [lit "!"] /\
  (exists s m,
    onTokens (start, INITIAL_CONVERSATION ++ [placeholder])
      ([lit "Hello "] ++ [OPEN ++ lit "plan"] ++ [lit "ning"] ++
       [CLOSE ++ lit " world"] ++ [lit "!"])
    = Some (s, INITIAL_CONVERSATION ++ [m]) /\
    thought m = Some (trim (lit "plan" ++ concat [lit "ning"]))) /\
  Forall (fun f => closes f = false)
         [lit "<think>a"; lit "b</thi"; lit "nk>c"] /\
  (exists s m,
    onTokens (start, INITIAL_CONVERSATION ++ [placeholder])
      [lit "<think>a"; lit "b</thi"; lit "nk>c"]
    = Some (s, INITIAL_CONVERSATION ++ [m]) /\
    thought m = None) /\
  Forall (fun f => includes OPEN f = false) [lit "<thi"; lit "nk>a"] /\
  closes (lit "</think>b") = true /\
  Forall (fun f => closes f = false) [lit "c"] /\
  (exists s m,
    onTokens (start, INITIAL_CONVERSATION ++ [placeholder])
      ([lit "<thi"; lit "nk>a"] ++ [lit "</think>b"] ++ [lit "c"])
    = Some (s, INITIAL_CONVERSATION ++ [m]) /\
    thought m = Some []).
Proof.
  assert (H1 : Forall (fun f => includes OPEN f = false) [lit "ning"])
    by (repeat constructor).
  assert (H2 : includes CLOSE (lit "plan" ++ concat [lit "ning"]) = false)
    by reflexivity.
  assert (H3 : includes OPEN (CLOSE ++ lit " world") = false) by reflexivity.
  assert (H4 : Forall (fun f => closes f = false) [lit "!"])
    by (repeat constructor).
  assert (H5 : Forall (fun f => closes f = false)
                 [lit "<think>a"; lit "b</thi"; lit "nk>c"])
    by (repeat constructor).
  assert (H6 : Forall (fun f => includes OPEN f = false)
                 [lit "<thi"; lit "nk>a"])
    by (repeat constructor).
  assert (H7 : closes (lit "</think>b") = true) by reflexivity.
  assert (H8 : Forall (fun f => closes f = false) [lit "c"])
    by (repeat constructor).
  repeat (split; [assumption|]).
  split.
  - exact (proj1 (proj2 (proj2 (proj2 (proj2 reasoning_of_whole_markers))))
             INITIAL_CONVERSATION [lit "Hello "] (lit "plan") [lit "ning"]
             (lit " world") [lit "!"] H1 H2 H3 H4).
  - split; [exact H5|]. split.
    + exact (proj1 (proj2 (proj2 reasoning_of_whole_markers))
               INITIAL_CONVERSATION _ H5).
    + split; [exact H6|]. split; [exact H7|]. split; [exact H8|].
      exact (proj1 (proj2 (proj2 (proj2 reasoning_of_whole_markers)))
               INITIAL_CONVERSATION _ _ _ H6 H7 H8).
Defined.

(** The text between the markers must hold no closing marker, not even a
    split one: here the first closing marker is split over two fragments,
    the text between the markers is [a], and the reasoning published at
    the whole closing marker is [ab]. *)
Example split_closing_marker_in_between :
  option_map snd
    (onTokens (start, INITIAL_CONVERSATION ++ [placeholder])
       [lit "<think>a</thi"; lit "nk>b"; lit "</think>c"])
  = Some (INITIAL_CONVERSATION ++
          [ {| role := assistant; content := lit "b</think>c";
               thought := Some (lit "ab");
               showThought := Some false |} ]).
Proof. vm_compute. reflexivity. Qed.

(** With whole markers the example scenario gives the reasoning
    [planning]. *)
Example whole_markers_example :
  option_map snd
    (onTokens (start, INITIAL_CONVERSATION ++ [placeholder])
       [lit "Hello "; lit "<think>"; lit "planning"; lit "</think>";
        lit " world"])
  = Some (INITIAL_CONVERSATION ++
          [ {| role := assistant; content := lit "Hello  world";
               thought := Some (lit "planning");
               showThought := Some false |} ]).
Proof. vm_compute. reflexivity. Qed.

(** The closing branch reads [currentThought] as it was before the
    fragment: what the closing fragment carries in front of the marker is
    not in the reasoning. *)
Example text_in_closing_fragment :
  option_map snd
    (onTokens (start, INITIAL_CONVERSATION ++ [placeholder])
       [lit "<think>"; lit "plan"; lit "ning</think>"; lit "ok"])
  = Some (INITIAL_CONVERSATION ++
          [ {| role := assistant; content := lit "ok";
               thought := Some (lit "plan");
               showThought := Some false |} ]).
Proof. vm_compute. reflexivity. Qed.

(** A fragment that holds both markers takes the opening branch only. *)
Example pair_in_one_fragment :
  option_map snd
    (onTokens (start, INITIAL_CONVERSATION ++ [placeholder])
       [lit "<think>plan</think>"; lit "ok"])
  = Some (INITIAL_CONVERSATION ++
          [ {| role := assistant; content := lit "ok";
               thought := None; showThought := Some false |} ]).
Proof. vm_compute. reflexivity. Qed.

(** C2, as stated, fails: an opening marker that is never closed stays in
    the visible content, with the text that follows it. *)
Lemma unclosed_marker_stays_visible :
  exists s m,
    onTokens (start, INITIAL_CONVERSATION ++ [placeholder])
      [lit "Hi "; lit "<think>"; lit "plan"]
    = Some (s, INITIAL_CONVERSATION ++ [m]) /\
    content m = lit "Hi <think>plan" /\
    includes OPEN (content m) = true /\
    includes (lit "plan") (content m) = true.
Proof.
  rewrite onTokens_last. do 2 eexists. split; [reflexivity|].
  repeat split; vm_compute; reflexivity.
Qed.

(** C2, amended: when no closing marker arrives before the end of the
    stream, no reasoning is published, and the visible content is the
    whole stream, trimmed: an opening marker in the stream and the text
    after it stay in the visible content. *)
Theorem unclosed_reasoning_is_visible (l : list Message) (fragments : list str) :
  includes CLOSE (concat fragments) = false ->
  exists s m,
    onTokens (start, l ++ [placeholder]) fragments = Some (s, l ++ [m]) /\
    thought m = None /\
    content m = trim (concat fragments) /\
    (includes OPEN (concat fragments) = true ->
     includes OPEN (content m) = true).
Proof.
  intros H. rewrite onTokens_last. do 2 eexists. split; [reflexivity|].
  assert (Hcontent :
    content (snd (steps (start, placeholder) fragments)) =
    trim (concat fragments)).
  { destruct fragments as [|f fs]; [reflexivity|].
    rewrite steps_content by easy. cbn [start currentAssistantMessage fst app].
    now rewrite replace_think_unclosed. }
  split; [|split; [exact Hcontent|]].
  - rewrite steps_thought_kept; [reflexivity|].
    apply includes_false_concat in H.
    eapply Forall_impl; [|exact H]. apply closes_false.
  - intros Ho. rewrite Hcontent. unfold trim.
    apply (trimEnd_includes 62%N (rev (lit "<think"))); [reflexivity..|].
    rewrite OPEN_cons. apply trimStart_includes; [reflexivity|exact Ho].
Qed.

Lemma unclosed_reasoning_is_visible_witness :
  includes CLOSE (concat [lit "Hi "; lit "<think>"; lit "plan"]) = false /\
  exists s m,
    onTokens (start, INITIAL_CONVERSATION ++ [placeholder])
      [lit "Hi "; lit "<think>"; lit "plan"]
    = Some (s, INITIAL_CONVERSATION ++ [m]) /\
    thought m = None /\
    content m = trim (concat [lit "Hi "; lit "<think>"; lit "plan"]) /\
    (includes OPEN (concat [lit "Hi "; lit "<think>"; lit "plan"]) = true ->
     includes OPEN (content m) = true).
Proof.
  assert (H : includes CLOSE (concat [lit "Hi "; lit "<think>"; lit "plan"])
              = false) by reflexivity.
  split; [exact H|].
  exact (unclosed_reasoning_is_visible INITIAL_CONVERSATION
           [lit "Hi "; lit "<think>"; lit "plan"] H).
Defined.

End Reasoning.

(* ================================================================== *)
(** * Cancellation *)
(* ================================================================== *)

Section Cancellation.

Import Chat.

Lemma stopUpdater_last (l : list Message) (m : Message) :
  stopUpdater (l ++ [m]) =
  if Role_eqb (role m) assistant then
    Some (l ++ [ {| role := role m; content := content m ++ STOP_NOTICE;
                    thought := thought m; showThought := showThought m |} ])
  else Some (l ++ [m]).
Proof.
  unfold stopUpdater. now rewrite rev_unit, removelast_last.
Qed.

(** C3, as stated, fails: a cancellation whose stop request throws
    appends nothing, so the content of the turn in flight is not its
    former content followed by a notice; and the notice that a successful
    cancellation appends is not the text [generation stopped by user] but
    two line feeds and [*Generation stopped by user*]. *)
Lemma failed_stop_appends_no_notice :
  stopGeneration false
    (INITIAL_CONVERSATION ++
     [ {| role := assistant; content := lit "Hello wor"; thought := None;
          showThought := Some false |} ])
  = Some (INITIAL_CONVERSATION ++
          [ {| role := assistant; content := lit "Hello wor";
               thought := None; showThought := Some false |} ]) /\
  lit "Hello wor" <> lit "Hello wor" ++ lit "generation stopped by user" /\
  stopGeneration true
    (INITIAL_CONVERSATION ++
     [ {| role := assistant; content := lit "Hello wor"; thought := None;
          showThought := Some false |} ])
  <> Some (INITIAL_CONVERSATION ++
           [ {| role := assistant;
                content := lit "Hello wor" ++ lit "generation stopped by user";
                thought := None; showThought := Some false |} ]).
Proof.
  split; [reflexivity|]. split; vm_compute; discriminate.
Qed.

(** C3, amended. When the stop request to the engine returns, the updater
    of [stopGeneration] replaces the assistant turn at the end of the log
    by the same turn with two line feeds and
    [*Generation stopped by user*] appended to its content: the content
    [v] becomes [v] followed by that notice, and no other turn and no
    other field changes; this holds for the turn in flight after any
    tokens of a completion. When the stop request throws, the log stays
    as it is and no notice is appended. A token that the engine still
    delivers after the update overwrites the content of the turn with the
    text accumulated from the tokens, and the notice is gone. *)
Theorem cancel_appends_notice :
  (forall (l : list Message) (m : Message),
      role m = assistant ->
      stopGeneration true (l ++ [m]) =
      Some (l ++ [ {| role := role m;
                      content :=
                        content m ++
                        [10; 10]%N ++ lit "*Generation stopped by user*";
                      thought := thought m;
                      showThought := showThought m |} ])) /\
  (forall (l : list Message) (tokens : list str),
      exists s m,
        onTokens (start, l ++ [placeholder]) tokens = Some (s, l ++ [m]) /\
        stopGeneration true (l ++ [m]) =
        Some (l ++ [ {| role := assistant;
                        content :=
                          content m ++
                          [10; 10]%N ++ lit "*Generation stopped by user*";
                        thought := thought m;
                        showThought := showThought m |} ])) /\
  (forall prev : list Message, stopGeneration false prev = Some prev) /\
  (forall (s : Stream) (l : list Message) (m : Message) (token : str),
      exists noticed,
        stopGeneration true (l ++ [m]) = Some noticed /\
        onToken (s, noticed) token =
        Some (nextStream s token,
              l ++ [ {| role := role m;
                        content :=
                          trim (replace_think
                                  (currentAssistantMessage s ++ token));
                        thought :=
                          if closes token
                          then Some (trim (replace CLOSE []
                                             (currentThought s)))
                          else thought m;
                        showThought := showThought m |} ])).
Proof.
  split; [|split; [|split]].
  - intros l m Hm. cbn [stopGeneration]. rewrite stopUpdater_last.
    now rewrite Hm.
  - intros l tokens. rewrite onTokens_last. do 2 eexists.
    split; [reflexivity|]. cbn [stopGeneration]. rewrite stopUpdater_last.
    assert (Hrole : forall ts sm, role (snd (steps sm ts)) = role (snd sm)).
    { induction ts as [|t ts IH]; intros sm; [reflexivity|].
      now rewrite steps_cons, IH. }
    now rewrite Hrole.
  - reflexivity.
  - intros s l m token. cbn [stopGeneration]. rewrite stopUpdater_last.
    destruct (Role_eqb (role m) assistant); eexists;
      (split; [reflexivity|]); now rewrite onToken_last.
Qed.

Lemma cancel_appends_notice_witness :
  role {| role := assistant; content := lit "Hello wor"; thought := None;
          showThought := Some false |} = assistant /\
  stopGeneration true
    (INITIAL_CONVERSATION ++
     [ {| role := assistant; content := lit "Hello wor"; thought := None;
          showThought := Some false |} ]) =
  Some (INITIAL_CONVERSATION ++
        [ {| role := assistant;
             content :=
               lit "Hello wor" ++
               [10; 10]%N ++ lit "*Generation stopped by user*";
             thought := None; showThought := Some false |} ]).
Proof.
  split; [reflexivity|].
  exact (proj1 cancel_appends_notice INITIAL_CONVERSATION
           {| role := assistant; content := lit "Hello wor"; thought := None;
              showThought := Some false |} eq_refl).
Defined.

(** When the stop request throws, the [catch] leaves the log as it is. *)
Lemma failed_stop_leaves_log (prev : list Message) :
  stopGeneration false prev = Some prev.
Proof. reflexivity. Qed.

(** C10: when the last turn of the log is not an assistant turn,
    [stopGeneration] leaves the whole log as it is, whether or not the
    engine has taken the stop request. *)
Theorem cancel_without_assistant_turn
  (stopped : bool) (l : list Message) (m : Message) :
  role m <> assistant ->
  stopGeneration stopped (l ++ [m]) = Some (l ++ [m]).
Proof.
  intros Hm. destruct stopped; [|reflexivity].
  cbn [stopGeneration]. rewrite stopUpdater_last.
  destruct (role m); try reflexivity. contradiction.
Qed.

Lemma cancel_without_assistant_turn_witness :
  role {| role := user; content := lit "hi"; thought := None;
          showThought := None |} <> assistant /\
  stopGeneration true
    (INITIAL_CONVERSATION ++
     [ {| role := user; content := lit "hi"; thought := None;
          showThought := None |} ]) =
  Some (INITIAL_CONVERSATION ++
        [ {| role := user; content := lit "hi"; thought := None;
             showThought := None |} ]).
Proof.
  assert (H : role {| role := user; content := lit "hi"; thought := None;
                      showThought := None |} <> assistant) by discriminate.
  split; [exact H|].
  exact (cancel_without_assistant_turn true INITIAL_CONVERSATION _ H).
Defined.

End Cancellation.

(* ================================================================== *)
(** * Writing the metadata list and reading it back *)
(* ================================================================== *)

Section JsonFacts.

Import Json.

Lemma hex_value_digit (n : N) :
  (n < 16)%N -> hex_value (hex_digit n) = Some n.
Proof.
  intros H. destruct n as [|p]; [reflexivity|].
  do 4 (destruct p as [p|p|]; try reflexivity; try lia).
Qed.

Lemma hex4_escape (c : char) (rest : str) :
  (c < 65536)%N ->
  parse_string_body (unicode_escape c ++ rest) =
  push c (parse_string_body rest).
Proof.
  intros H. unfold unicode_escape. cbn [app parse_string_body].
  change (BACKSLASH =? QUOTE)%N with false.
  change (BACKSLASH =? BACKSLASH)%N with true.
  change (117 =? 117)%N with true. cbv iota. unfold hex4.
  rewrite !hex_value_digit
    by (zify; Z.to_euclidean_division_equations; lia).
  replace (4096 * (c / 4096) + 256 * ((c / 256) mod 16)
           + 16 * ((c / 16) mod 16) + c mod 16)%N with c
    by (zify; Z.to_euclidean_division_equations; lia).
  reflexivity.
Qed.

Lemma parse_plain (c : char) (rest : str) :
  (32 <= c)%N -> c <> QUOTE -> c <> BACKSLASH ->
  parse_string_body (c :: rest) = push c (parse_string_body rest).
Proof.
  intros H32 Hq Hb. cbn [parse_string_body].
  apply N.eqb_neq in Hq, Hb. rewrite Hq, Hb.
  apply N.leb_le in H32. rewrite N.leb_antisym in H32.
  apply negb_true_iff in H32. now rewrite H32.
Qed.

Lemma parse_quote_unit (c : char) (rest : str) :
  parse_string_body (quote_unit c ++ rest) = push c (parse_string_body rest).
Proof.
  unfold quote_unit.
  destruct (N.eqb_spec c 8) as [->|H8]; [reflexivity|].
  destruct (N.eqb_spec c 9) as [->|H9]; [reflexivity|].
  destruct (N.eqb_spec c 10) as [->|H10]; [reflexivity|].
  destruct (N.eqb_spec c 12) as [->|H12]; [reflexivity|].
  destruct (N.eqb_spec c 13) as [->|H13]; [reflexivity|].
  destruct (N.eqb_spec c 34) as [->|H34]; [reflexivity|].
  destruct (N.eqb_spec c 92) as [->|H92]; [reflexivity|].
  destruct (N.ltb_spec c 32) as [Hlt|Hge].
  - apply hex4_escape. lia.
  - now apply parse_plain.
Qed.

Lemma parse_surrogate (c : char) (rest : str) :
  (55296 <= c)%N ->
  parse_string_body (c :: rest) = push c (parse_string_body rest).
Proof.
  intros H. apply parse_plain; unfold QUOTE, BACKSLASH; lia.
Qed.

(** A quoted string is read back as it was. *)
Lemma parse_quote_from (s : str) :
  forall (prev_high : bool) (rest : str),
    parse_string_body (quote_from prev_high s ++ QUOTE :: rest)
    = Some (s, rest).
Proof.
  induction s as [|c t IH]; intros ph rest; [reflexivity|].
  cbn [quote_from]. rewrite <- app_assoc.
  assert (Hpiece : forall piece,
    parse_string_body (piece ++ quote_from (is_high c) t ++ QUOTE :: rest)
    = push c (parse_string_body (quote_from (is_high c) t ++ QUOTE :: rest))
    -> parse_string_body (piece ++ quote_from (is_high c) t ++ QUOTE :: rest)
       = Some (c :: t, rest)).
  { intros piece ->. now rewrite IH. }
  apply Hpiece.
  destruct (is_high c) eqn:Hh.
  - unfold is_high in Hh. apply andb_true_iff in Hh as [Hh1 Hh2].
    apply N.leb_le in Hh1, Hh2.
    destruct (match t with d :: _ => is_low d | [] => false end).
    + now apply parse_surrogate.
    + apply hex4_escape. lia.
  - destruct (is_low c) eqn:Hl.
    + unfold is_low in Hl. apply andb_true_iff in Hl as [Hl1 Hl2].
      apply N.leb_le in Hl1, Hl2.
      destruct ph; [apply parse_surrogate|apply hex4_escape]; lia.
    + apply parse_quote_unit.
Qed.

Lemma parse_string_quote (s rest : str) :
  parse_string (quote s ++ rest) = Some (s, rest).
Proof.
  unfold quote, parse_string. cbn [app].
  change (QUOTE =? QUOTE)%N with true. cbv iota.
  rewrite <- app_assoc. apply parse_quote_from.
Qed.

Lemma parse_digits_digits (u : Decimal.uint) (rest : str) :
  match rest with c :: _ => digit_of c = None | [] => True end ->
  parse_digits (digits u ++ rest) = (u, rest).
Proof.
  intros Hrest. induction u; cbn [digits app parse_digits];
    try (change (digit_of _) with (Some Decimal.D0)
         || change (digit_of _) with (Some Decimal.D1)
         || change (digit_of _) with (Some Decimal.D2)
         || change (digit_of _) with (Some Decimal.D3)
         || change (digit_of _) with (Some Decimal.D4)
         || change (digit_of _) with (Some Decimal.D5)
         || change (digit_of _) with (Some Decimal.D6)
         || change (digit_of _) with (Some Decimal.D7)
         || change (digit_of _) with (Some Decimal.D8)
         || change (digit_of _) with (Some Decimal.D9));
    try (cbv iota beta; now rewrite IHu).
  destruct rest as [|c t]; [reflexivity|]. cbn [parse_digits].
  now rewrite Hrest.
Qed.

Lemma parse_number_number (n : N) (rest : str) :
  match rest with c :: _ => digit_of c = None | [] => True end ->
  parse_number (number n ++ rest) = Some (n, rest).
Proof.
  intros Hrest. unfold parse_number, number.
  rewrite parse_digits_digits by assumption.
  rewrite <- (DecimalN.Unsigned.of_to n) at 2.
  destruct (N.to_uint n) eqn:E; try reflexivity.
  destruct n as [|p]; [discriminate|].
  now apply DecimalPos.Unsigned.to_uint_nonnil in E.
Qed.

Lemma expect_app (p s : str) : expect p (p ++ s) = Some s.
Proof.
  unfold expect. now rewrite startsWith_app, skipn_length_app.
Qed.

Lemma expect_brace_comma (s : str) : expect (lit "}") (COMMA ++ s) = None.
Proof. reflexivity. Qed.

Lemma expect_bracket_comma (s : str) : expect (lit "]") (COMMA ++ s) = None.
Proof. reflexivity. Qed.

Lemma expect_bracket_record (m : ModelMetadata) (s : str) :
  expect (lit "]") (stringify_record m ++ s) = None.
Proof. reflexivity. Qed.

(** A record is read back as it was. *)
Lemma parse_stringify_record (m : ModelMetadata) (rest : str) :
  parse_record (stringify_record m ++ rest) = Some (m, rest).
Proof.
  unfold parse_record, stringify_record. destruct m as [fn fm dd [n|]];
    cbn [filename format downloadDate size]; rewrite <- !app_assoc;
    rewrite (app_assoc (lit "{")), expect_app, parse_string_quote;
    rewrite (app_assoc COMMA (key "format")), expect_app, parse_string_quote;
    rewrite (app_assoc COMMA (key "downloadDate")), expect_app,
      parse_string_quote.
  - rewrite expect_brace_comma.
    rewrite (app_assoc COMMA (key "size")), expect_app.
    rewrite parse_number_number by reflexivity.
    now rewrite expect_app.
  - cbn [app]. now rewrite expect_app.
Qed.

Lemma stringify_elements_cons (l : list ModelMetadata) :
  forall m,
    stringify_elements (m :: l) =
    stringify_record m ++
    concat (map (fun x => COMMA ++ stringify_record x) l).
Proof.
  induction l as [|x l IH]; intros m.
  - cbn [stringify_elements map concat]. now rewrite app_nil_r.
  - change (stringify_elements (m :: x :: l))
      with (stringify_record m ++ COMMA ++ stringify_elements (x :: l)).
    rewrite IH. cbn [map concat]. now rewrite <- app_assoc.
Qed.

Lemma parse_more_elements (l : list ModelMetadata) :
  forall (fuel : nat) (rest : str),
    (length l < fuel)%nat ->
    parse_more fuel
      (concat (map (fun x => COMMA ++ stringify_record x) l)
       ++ lit "]" ++ rest)
    = Some (l, rest).
Proof.
  induction l as [|x l IH]; intros [|fuel] rest Hfuel;
    try (cbn [length] in Hfuel; lia).
  - cbn [map concat app parse_more]. now rewrite expect_app.
  - cbn [map concat parse_more]. rewrite <- !app_assoc.
    rewrite expect_bracket_comma, expect_app, parse_stringify_record.
    rewrite IH by (cbn [length] in Hfuel; lia). reflexivity.
Qed.

Lemma length_elements (l : list ModelMetadata) :
  (length l <=
   length (concat (map (fun x => COMMA ++ stringify_record x) l)))%nat.
Proof.
  induction l as [|x l IH]; [apply Nat.le_refl|].
  cbn [map concat]. rewrite !length_app. cbn [length COMMA]. lia.
Qed.

(** [JSON.parse(JSON.stringify(m))] is [m]. *)
Lemma parse_stringify (l : list ModelMetadata) :
  parse (stringify l) = Some l.
Proof.
  destruct l as [|m l]; [reflexivity|].
  unfold parse, stringify. rewrite expect_app, stringify_elements_cons.
  rewrite <- app_assoc, expect_bracket_record, parse_stringify_record.
  rewrite <- (app_nil_r (lit "]")) at 2.
  rewrite parse_more_elements; [reflexivity|].
  rewrite length_app. pose proof (length_elements l) as H.
  change (length (lit "]")) with 1%nat. lia.
Qed.

End JsonFacts.

(* ================================================================== *)
(** * Persistence of the metadata list *)
(* ================================================================== *)

Section Persistence.

Import Meta.

(** C8 fails on the code: the effect is there to save the list whenever
    it changes, but it skips the list that has become empty. When the
    last record is removed the file is not written and still holds the
    removed record; reading the file, as the next start does, gives the
    list from before the removal. *)
Lemma removing_last_record_is_not_saved :
  mutate true (fun prev => prev ++ [one_record]) ([], None)
  = ([one_record], Some (Json.stringify [one_record])) /\
  mutate true (removeRecord (lit "qwen2-instruct-q4.gguf"))
    ([one_record], Some (Json.stringify [one_record]))
  = ([], Some (Json.stringify [one_record])) /\
  loadModelMetadata (Some (Json.stringify [one_record])) = Some [one_record] /\
  loadModelMetadata (Some (Json.stringify [one_record])) <> Some [].
Proof.
  repeat split; try (vm_compute; reflexivity).
  vm_compute. discriminate.
Qed.

(** Every change of the list to a non-empty, well-formed list, when the
    write succeeds, leaves in the file the text of the whole new list,
    and reading that file gives exactly the new list; a change to the
    empty list leaves the file as it was. *)
Theorem saved_list_is_read_back :
  (forall (f : list ModelMetadata -> list ModelMetadata)
          (st : list ModelMetadata * option str),
      f (fst st) <> [] ->
      well_formed (f (fst st)) ->
      fst (mutate true f st) = f (fst st) /\
      snd (mutate true f st) = Some (Json.stringify (f (fst st))) /\
      loadModelMetadata (snd (mutate true f st)) = Some (f (fst st))) /\
  (forall (written : bool) (f : list ModelMetadata -> list ModelMetadata)
          (st : list ModelMetadata * option str),
      f (fst st) = [] ->
      mutate written f st = ([], snd st)).
Proof.
  split.
  - intros f st Hne _. unfold mutate, persistEffect, saveModelMetadata.
    cbn [fst snd]. destruct (f (fst st)) as [|m l] eqn:E; [contradiction|].
    cbn [length Nat.ltb Nat.leb]. repeat split.
    cbn [loadModelMetadata]. apply parse_stringify.
  - intros written f st E. unfold mutate, persistEffect. now rewrite E.
Qed.

Lemma saved_list_is_read_back_witness :
  (fun prev => prev ++ [one_record]) (fst (@nil ModelMetadata, @None str))
  <> [] /\
  well_formed
    ((fun prev => prev ++ [one_record]) (fst (@nil ModelMetadata, @None str)))
  /\
  loadModelMetadata
    (snd (mutate true (fun prev => prev ++ [one_record]) ([], None)))
  = Some [one_record].
Proof.
  assert (H1 : (fun prev => prev ++ [one_record])
                 (fst (@nil ModelMetadata, @None str)) <> [])
    by discriminate.
  assert (H2 : well_formed
                 ((fun prev => prev ++ [one_record])
                    (fst (@nil ModelMetadata, @None str)))).
  { unfold well_formed, well_formed_str.
    repeat (constructor || split); try reflexivity. vm_compute. discriminate. }
  split; [exact H1|]. split; [exact H2|].
  exact (proj2 (proj2 (proj1 saved_list_is_read_back _ _ H1 H2))).
Defined.

End Persistence.

(* ================================================================== *)
(** * Throughput samples *)
(* ================================================================== *)

Section Throughput.

Import Chat.

(** A run on a loaded model with a non-blank input adds a user turn and
    an assistant turn, and a sample only when the completion resolves. *)
Lemma send_adds_turns (input : str) (c : Completion) (a : App) (h : Handle) :
  context a = Some h -> trim input <> [] ->
  exists a' m,
    handleSendMessage input c a = Some a' /\
    conversation a' =
      conversation a ++
      [ {| role := user; content := input; thought := None;
           showThought := None |}; m ] /\
    role m = assistant /\
    tokensPerSecond a' =
      tokensPerSecond a ++
      match c with Resolved _ pps => [pps] | Rejected _ => [] end.
Proof.
  intros Hc Hin. unfold handleSendMessage. rewrite Hc.
  destruct (trim input) as [|x t]; [contradiction|].
  rewrite onTokens_last.
  assert (Hrole : forall ts sm, role (snd (steps sm ts)) = role (snd sm)).
  { induction ts as [|u ts IH]; intros sm; [reflexivity|].
    now rewrite steps_cons, IH. }
  destruct c as [ts pps|ts]; do 2 eexists;
    (split; [reflexivity|]); cbn [conversation tokensPerSecond
      setConversation setTokensPerSecond tokens_of];
    rewrite <- app_assoc; cbn [app]; rewrite ?app_nil_r;
    repeat split; apply Hrole.
Qed.

(** C9 fails on the code: a completion that rejects leaves its assistant
    turn in the log without a sample, and the sample of the next run is
    shown under that turn. Here the first run rejects and the second
    resolves with 12.34 tokens per second: the log has two assistant turns
    and one sample; the render shows 12.34 under the first assistant turn
    (position 1 of [conversation.slice(1)]) and nothing under the second
    (position 3). *)
Theorem sample_shifts_after_rejected_run :
  let a0 := setContext (Some 1%nat) (setEngine [1%nat] initial_App) in
  exists a1 a2,
    handleSendMessage (lit "hi") (Rejected []) a0 = Some a1 /\
    handleSendMessage (lit "again") (Resolved [lit "ok"] 1234%N) a1
    = Some a2 /\
    map role (conversation a2) = [system; user; assistant; user; assistant] /\
    tokensPerSecond a2 = [1234%N] /\
    shownSample a2 1 = Some 1234%N /\
    shownSample a2 3 = None.
Proof.
  cbv zeta. do 2 eexists.
  split; [vm_compute; reflexivity|].
  split; [vm_compute; reflexivity|].
  repeat split.
Qed.

End Throughput.

(* ================================================================== *)
(** * At most one engine context *)
(* ================================================================== *)

Section EngineFacts.

Import Engine.

(** One run of [loadModel] from a settled state: no state it goes through
    has more than one context alive, and it ends in a settled state. *)
Lemma loadModel_settled (c : Calls) (modelName : str)
  (seen : list ModelMetadata) (a : App) :
  settled a ->
  Forall (fun x => (length (engine x) <= 1)%nat)
         (fst (loadModel c modelName seen a)) /\
  settled (after (loadModel c modelName seen a) a).
Proof.
  unfold settled, loadModel, initSteps, after. intros H.
  destruct (context a) as [h|] eqn:Hc.
  - destruct (released c); [|split; [constructor|cbn; now rewrite Hc]].
    destruct (init c) as [h'|].
    + cbn [setContext setEngine setConversation context engine
           selectedModelFormat modelMetadata].
      destruct (find _ seen) as [mm|];
        [destruct (str_eqb (format mm) UNKNOWN)|];
        cbn; split; repeat constructor.
    + cbn. split; repeat constructor.
  - destruct (init c) as [h'|]; [|split; [constructor|cbn; now rewrite Hc]].
    destruct (find _ seen) as [mm|];
      [destruct (str_eqb (format mm) UNKNOWN)|];
      cbn; rewrite H; split; repeat constructor.
Qed.

Lemma loads_settled (calls : list (Calls * str * list ModelMetadata)) :
  forall a,
    settled a ->
    Forall (fun x => (length (engine x) <= 1)%nat) (loads calls a).
Proof.
  induction calls as [|[[c modelName] seen] rest IH]; intros a H.
  - constructor; [|constructor]. rewrite H. destruct (context a); cbn; lia.
  - cbn [loads]. destruct (loadModel_settled c modelName seen a H) as [H1 H2].
    constructor; [rewrite H; destruct (context a); cbn; lia|].
    apply Forall_app. split; [exact H1|]. now apply IH.
Qed.

(** Calls that do not overlap, each made by the render that follows the
    end of the one before: whatever the outcome of [releaseAllLlama] and
    [initLlama] in each, no state that the component goes through has more
    than one context alive in the engine; and a run that finds a context
    first releases it: when [initLlama] is reached the engine holds
    none. *)
Theorem at_most_one_context_alive :
  (forall calls : list (Calls * str * list ModelMetadata),
      Forall (fun a => (length (engine a) <= 1)%nat)
             (loads calls initial_App)) /\
  (forall (c : Calls) (modelName : str) (seen : list ModelMetadata)
          (a : App) (h : Handle),
      context a = Some h -> released c = true ->
      exists a1 a2 a3 steps,
        fst (loadModel c modelName seen a) = a1 :: a2 :: a3 :: steps /\
        engine a3 = [] /\ context a3 = None /\
        fst (initSteps c modelName seen a3) = steps).
Proof.
  split.
  - intros calls. apply loads_settled. reflexivity.
  - intros c modelName seen a h Hc Hr. unfold loadModel. rewrite Hc, Hr.
    destruct (initSteps c modelName seen _) as [steps ok] eqn:E.
    do 4 eexists. split; [reflexivity|]. rewrite E. repeat split.
Qed.

Lemma at_most_one_context_alive_witness :
  context (setContext (Some 1%nat) (setEngine [1%nat] initial_App))
  = Some 1%nat /\
  released {| released := true; init := Some 2%nat |} = true /\
  exists a1 a2 a3 steps,
    fst (loadModel {| released := true; init := Some 2%nat |} (lit "m.gguf")
           [] (setContext (Some 1%nat) (setEngine [1%nat] initial_App)))
    = a1 :: a2 :: a3 :: steps /\
    engine a3 = [] /\ context a3 = None /\
    fst (initSteps {| released := true; init := Some 2%nat |} (lit "m.gguf")
           [] a3) = steps.
Proof.
  split; [reflexivity|]. split; [reflexivity|].
  exact (proj2 at_most_one_context_alive
           {| released := true; init := Some 2%nat |} (lit "m.gguf") []
           (setContext (Some 1%nat) (setEngine [1%nat] initial_App)) 1%nat
           eq_refl eq_refl).
Defined.

(** A call made by the current render is [loadModel]. *)
Lemma loadModelFrom_current (c : Calls) (modelName : str)
  (seen : list ModelMetadata) (a : App) :
  loadModelFrom (context a) c modelName seen a = loadModel c modelName seen a.
Proof.
  unfold loadModelFrom, releaseSteps, loadModel.
  destruct (context a); [destruct (released c)|]; cbn [last];
    try reflexivity; now destruct (initSteps c modelName seen _).
Qed.

(** A run without another call in between is its two stretches, one
    after the other. *)
Lemma loadModelFrom_stretches (seenContext : option Handle) (c : Calls)
  (modelName : str) (seen : list ModelMetadata) (a : App) :
  snd (releaseSteps seenContext c a) = true ->
  fst (loadModelFrom seenContext c modelName seen a) =
  stretch (UpToInit seenContext c) a ++
  stretch (FromInit c modelName seen)
    (last (stretch (UpToInit seenContext c) a) a).
Proof.
  unfold loadModelFrom, stretch.
  destruct (releaseSteps seenContext c a) as [before goes_on]. cbn [fst snd].
  intros ->. now destruct (initSteps c modelName seen (last before a)).
Qed.


End EngineFacts.

(* ================================================================== *)
(** * Reconciliation at startup *)
(* ================================================================== *)

Section Reconciliation.

Import Meta.

Lemma str_eqb_eq (a b : str) : str_eqb a b = true <-> a = b.
Proof.
  revert b; induction a as [|x a IH]; intros [|y b]; simpl; try easy.
  rewrite andb_true_iff, N.eqb_eq, IH. split.
  - now intros [-> ->].
  - now intros [= -> ->].
Qed.

Lemma str_eqb_refl (a : str) : str_eqb a a = true.
Proof. now apply str_eqb_eq. Qed.

Lemma existsb_name (name : str) (l : list str) :
  existsb (str_eqb name) l = true <-> In name l.
Proof.
  rewrite existsb_exists. split.
  - intros (x & Hx & E). apply str_eqb_eq in E. now subst.
  - intros H. exists name. split; [exact H|apply str_eqb_refl].
Qed.

Lemma filter_none {A} (p : A -> bool) (l : list A) :
  (forall x, In x l -> p x = false) -> filter p l = [].
Proof.
  induction l as [|x l IH]; intros H; [reflexivity|].
  simpl. rewrite (H x) by now left. apply IH. intros y Hy. apply H. now right.
Qed.

Lemma filename_newRecord (fs : Fs) (l : list str) :
  map filename (map (newRecord fs) l) = l.
Proof. rewrite map_map. cbn [newRecord filename]. apply map_id. Qed.

(** Once the records of the new files are in the list that the function
    reads, no file is new. *)
Lemma newFiles_done (fs : Fs) (files : list str) (seen : list ModelMetadata) :
  newFiles files (seen ++ map (newRecord fs) (newFiles files seen)) = [].
Proof.
  unfold newFiles at 1. apply filter_none. intros f Hf.
  rewrite map_app, filename_newRecord, existsb_app.
  destruct (existsb (str_eqb f) (map filename seen)) eqn:E; [reflexivity|].
  cbn [orb]. apply negb_false_iff, existsb_name.
  unfold newFiles. apply filter_In. split; [exact Hf|]. now rewrite E.
Qed.

(** The body of [checkDownloadedModels] is idempotent when the list it
    reads is the list it updates. *)
Lemma reconcile_on_current_list_is_idempotent (fs : Fs) (a : App) :
  let a1 := checkDownloadedModels fs (modelMetadata a) a in
  checkDownloadedModels fs (modelMetadata a1) a1 = a1.
Proof.
  cbv zeta. unfold checkDownloadedModels.
  destruct (readDir fs) as [files|]; [|reflexivity]. cbv zeta.
  destruct (0 <? length (newFiles files (modelMetadata a)))%nat eqn:E.
  - cbn [setDownloadedModels setModelMetadata modelMetadata].
    now rewrite newFiles_done.
  - cbn [setDownloadedModels modelMetadata]. now rewrite E.
Qed.

(** C5 fails on the code: the effect reads the [modelMetadata] of the
    first render, which is empty, so every [.gguf] file counts as new at
    every start and gets one more record. With one model file in the
    directory, the first start leaves one record in the state and in the
    file, and the second start, on the same directory and on the file the
    first one wrote, leaves two records with the same file name. *)
Theorem second_start_duplicates_records :
  exists a1 file1 a2 file2,
    startup one_model None = (a1, file1) /\
    startup one_model file1 = (a2, file2) /\
    modelMetadata a1 = [one_record] /\
    modelMetadata a2 = [one_record; one_record] /\
    ~ NoDup (map filename (modelMetadata a2)).
Proof.
  do 4 eexists.
  split; [vm_compute; reflexivity|].
  split; [vm_compute; reflexivity|].
  split; [reflexivity|]. split; [reflexivity|].
  cbn [modelMetadata setModelMetadata map filename one_record].
  intros H. inversion H as [|? ? Hin _]. apply Hin. now left.
Qed.

End Reconciliation.

(* ================================================================== *)
(** * The format and the size of a new record *)
(* ================================================================== *)

Section Inference.

Import Meta.

(** The example scenario: one model file and no metadata. *)
Example reconcile_one_model :
  modelMetadata (reconcileEffect one_model initial_App) = [one_record].
Proof. vm_compute. reflexivity. Qed.

(** C6, as stated, fails: the two spellings of a family that the code
    looks for are not all of them. A file whose name has the family in
    capitals matches [Qwen2] without regard to case, yet its record gets
    the format [Unknown]. *)
Lemma capital_family_name_is_unknown :
  includes_ignoring_case (lit "Qwen2") (lit "QWEN2-instruct-q4.gguf") = true /\
  inferFormat (lit "QWEN2-instruct-q4.gguf") = Engine.UNKNOWN /\
  modelMetadata
    (reconcileEffect
       {| readDir := Some [lit "QWEN2-instruct-q4.gguf"];
          stat := fun _ => Some 500%N;
          clock := fun _ => lit "2025-01-01T00:00:00.000Z" |} initial_App)
  = [ {| filename := lit "QWEN2-instruct-q4.gguf";
         format := Engine.UNKNOWN;
         downloadDate := lit "2025-01-01T00:00:00.000Z";
         size := Some 500%N |} ].
Proof. repeat split; vm_compute; reflexivity. Qed.

Lemma inferFormat_table (name : str) : inferFormat name = formatBySpelling name.
Proof.
  unfold inferFormat, formatBySpelling, spellings. cbn [find].
  repeat match goal with
         | |- context [if ?b then _ else _] => destruct b; try reflexivity
         end.
Qed.

(** C6, amended: every [.gguf] file of the directory that has no record in
    the list the function reads gets a record with its name, with the
    format of the first family, in the order Llama, Qwen, DeepSeek,
    SmolLM, one of whose two spellings (the capitalised one and the one in
    small letters, compared case-sensitively) occurs in the name, and
    [Unknown] when none does, and with the size that [stat] reports, or
    none when [stat] fails. The file [qwen2-instruct-q4.gguf] gets the
    Qwen format. *)
Theorem reconcile_adds_inferred_record
  (fs : Fs) (files : list str) (seen : list ModelMetadata) (a : App)
  (name : str) :
  readDir fs = Some files ->
  In name files ->
  endsWith (lit ".gguf") name = true ->
  (forall m, In m seen -> filename m <> name) ->
  In {| filename := name; format := formatBySpelling name;
        downloadDate := clock fs name; size := stat fs name |}
     (modelMetadata (checkDownloadedModels fs seen a)) /\
  formatBySpelling (lit "qwen2-instruct-q4.gguf") = QWEN.
Proof.
  intros Hdir Hin Hext Hnew. split; [|reflexivity].
  assert (Hnf : In name (newFiles files seen)).
  { unfold newFiles, ggufFiles. rewrite !filter_In. repeat split; try easy.
    apply negb_true_iff.
    destruct (existsb (str_eqb name) (map filename seen)) eqn:E;
      [|reflexivity].
    apply existsb_name, in_map_iff in E as (m & Hm & Hseen).
    now apply Hnew in Hseen. }
  unfold checkDownloadedModels. rewrite Hdir. cbv zeta.
  destruct (newFiles files seen) as [|f new] eqn:E; [contradiction|].
  cbn [length Nat.ltb Nat.leb setModelMetadata modelMetadata].
  apply in_or_app. right. rewrite <- inferFormat_table.
  change {| filename := name; format := inferFormat name;
            downloadDate := clock fs name; size := stat fs name |}
    with (newRecord fs name).
  now apply in_map.
Qed.

Lemma reconcile_adds_inferred_record_witness :
  readDir one_model = Some [lit "qwen2-instruct-q4.gguf"; lit "notes.txt"] /\
  In (lit "qwen2-instruct-q4.gguf")
     [lit "qwen2-instruct-q4.gguf"; lit "notes.txt"] /\
  endsWith (lit ".gguf") (lit "qwen2-instruct-q4.gguf") = true /\
  (forall m, In m (@nil ModelMetadata) ->
             filename m <> lit "qwen2-instruct-q4.gguf") /\
  In {| filename := lit "qwen2-instruct-q4.gguf";
        format := formatBySpelling (lit "qwen2-instruct-q4.gguf");
        downloadDate := clock one_model (lit "qwen2-instruct-q4.gguf");
        size := stat one_model (lit "qwen2-instruct-q4.gguf") |}
     (modelMetadata (checkDownloadedModels one_model [] initial_App)).
Proof.
  assert (H1 : readDir one_model =
               Some [lit "qwen2-instruct-q4.gguf"; lit "notes.txt"])
    by reflexivity.
  assert (H2 : In (lit "qwen2-instruct-q4.gguf")
                  [lit "qwen2-instruct-q4.gguf"; lit "notes.txt"])
    by (simpl; auto).
  assert (H3 : endsWith (lit ".gguf") (lit "qwen2-instruct-q4.gguf") = true)
    by reflexivity.
  assert (H4 : forall m, In m (@nil ModelMetadata) ->
                         filename m <> lit "qwen2-instruct-q4.gguf")
    by (intros m []).
  repeat (split; [assumption|]).
  exact (proj1 (reconcile_adds_inferred_record one_model _ [] initial_App
                  _ H1 H2 H3 H4)).
Defined.

End Inference.

(* ================================================================== *)
(** * Download of a file that is already there *)
(* ================================================================== *)

Section DownloadFacts.

Import Meta.

Lemma findIndex_first {A} (p : A -> bool) (l1 : list A) (m : A) (l2 : list A) :
  (forall x, In x l1 -> p x = false) -> p m = true ->
  findIndex p (l1 ++ m :: l2) = Some (length l1).
Proof.
  intros H1 Hm. induction l1 as [|x l1 IH]; simpl.
  - now rewrite Hm.
  - rewrite (H1 x) by now left. rewrite IH; [reflexivity|].
    intros y Hy. apply H1. now right.
Qed.

Lemma setAt_middle {A} (l1 : list A) (m x : A) (l2 : list A) :
  setAt (length l1) x (l1 ++ m :: l2) = l1 ++ x :: l2.
Proof. induction l1 as [|y l1 IH]; simpl; [reflexivity|now rewrite IH]. Qed.

Lemma nth_error_middle {A} (l1 : list A) (m : A) (l2 : list A) :
  nth_error (l1 ++ m :: l2) (length l1) = Some m.
Proof. induction l1; simpl; auto. Qed.

(** The size of the first record of the file, when it has none, becomes
    the measured one. *)
Lemma backfill_first (file : str) (sz : N) (l1 : list ModelMetadata)
  (m : ModelMetadata) (l2 : list ModelMetadata) :
  (forall x, In x l1 -> filename x <> file) ->
  filename m = file -> size m = None ->
  backfill file sz (l1 ++ m :: l2) =
  l1 ++ {| filename := filename m; format := format m;
           downloadDate := downloadDate m; size := Some sz |} :: l2.
Proof.
  intros H1 Hm Hs. unfold backfill.
  rewrite findIndex_first, nth_error_middle.
  - unfold noSize. rewrite Hs. apply setAt_middle.
  - intros x Hx. apply H1 in Hx.
    destruct (str_eqb (filename x) file) eqn:E; [|reflexivity].
    now apply str_eqb_eq in E.
  - now apply str_eqb_eq.
Qed.

Lemma setAt_names (i : nat) (x : ModelMetadata) :
  forall (l : list ModelMetadata) (m : ModelMetadata),
    nth_error l i = Some m -> filename x = filename m ->
    map filename (setAt i x l) = map filename l.
Proof.
  induction i as [|i IH]; intros [|y l] m H E; try discriminate.
  - injection H as ->. simpl. now rewrite E.
  - simpl. f_equal. now apply (IH l m).
Qed.

Lemma backfill_names (file : str) (sz : N) (l : list ModelMetadata) :
  map filename (backfill file sz l) = map filename l.
Proof.
  unfold backfill.
  destruct (findIndex _ l) as [i|]; [|reflexivity].
  destruct (nth_error l i) as [m|] eqn:E; [|reflexivity].
  destruct (noSize m); [|reflexivity].
  now apply (setAt_names i _ l m).
Qed.

(** A run of [loadModel] changes no file name and no size in the list. *)
Lemma loadModel_metadata (c : Engine.Calls) (file : str)
  (seen : list ModelMetadata) (a : App) :
  map filename (modelMetadata (Engine.after (Engine.loadModel c file seen a) a))
  = map filename (modelMetadata a) /\
  map size (modelMetadata (Engine.after (Engine.loadModel c file seen a) a))
  = map size (modelMetadata a).
Proof.
  assert (Hfix : forall fmt l,
    map filename (map (Engine.fixFormat file fmt) l) = map filename l /\
    map size (map (Engine.fixFormat file fmt) l) = map size l).
  { intros fmt l. rewrite !map_map. split; apply map_ext; intros m;
      unfold Engine.fixFormat; now destruct (str_eqb (filename m) file). }
  unfold Engine.loadModel, Engine.initSteps, Engine.after.
  destruct (context a); [destruct (Engine.released c)|];
    try (split; reflexivity);
    (destruct (Engine.init c); [|split; reflexivity]);
    (destruct (find _ seen) as [mm|];
       [destruct (str_eqb (format mm) Engine.UNKNOWN)|]);
    try (split; reflexivity); cbn; apply Hfix.
Qed.

Lemma loadModel_succeeds (c : Engine.Calls) (file : str)
  (seen : list ModelMetadata) (a : App) (h : Handle) :
  Engine.init c = Some h ->
  (context a <> None -> Engine.released c = true) ->
  snd (Engine.loadModel c file seen a) = true.
Proof.
  intros Hi Hr. unfold Engine.loadModel, Engine.initSteps.
  destruct (context a) as [h0|].
  - rewrite Hr by discriminate. rewrite Hi.
    destruct (find _ seen) as [mm|];
      [destruct (str_eqb (format mm) Engine.UNKNOWN)|]; reflexivity.
  - rewrite Hi.
    destruct (find _ seen) as [mm|];
      [destruct (str_eqb (format mm) Engine.UNKNOWN)|]; reflexivity.
Qed.

Lemma loadModel_fails (c : Engine.Calls) (file : str)
  (seen : list ModelMetadata) (a : App) :
  Engine.init c = None \/ (context a <> None /\ Engine.released c = false) ->
  snd (Engine.loadModel c file seen a) = false.
Proof.
  unfold Engine.loadModel, Engine.initSteps. intros [Hi|[Hc Hr]].
  - rewrite Hi. destruct (context a); [destruct (Engine.released c)|];
      reflexivity.
  - destruct (context a); [|contradiction]. now rewrite Hr.
Qed.

(** C7, as stated, fails: when the file exists but the engine does not
    load it, the handler goes on to the transfer, with its progress
    callbacks, and reports a download. *)
Lemma refused_file_is_downloaded_again :
  fileExists refused_file = true /\
  fst (handleDownloadModel refused_file (lit "qwen2-instruct-q4.gguf")
         [unsized_record] (setModelMetadata [unsized_record] initial_App))
  = [ Transfer (lit "qwen2-instruct-q4.gguf"); ProgressCallback 50%N;
      ProgressCallback 100%N; AlertSuccess ].
Proof. split; vm_compute; reflexivity. Qed.

(** C7, amended. When the file exists and the engine loads it, the handler
    makes no transfer and no progress callback and reports that the file
    already exists; the list keeps its file names, and when the size of
    the file could be measured and the first record of the file has no
    size, that record gets the measured size and no other size changes.
    When the file exists and loading it fails ([initLlama] throws, or a
    model is loaded and its release throws), the handler goes on to the
    download: it makes the transfer, passes on its progress, and reports
    the success or the failure of the download. *)
Theorem existing_file_is_loaded_without_transfer :
  (forall (d : Download) (file : str) (seen : list ModelMetadata) (a : App)
          (h : Handle),
      fileExists d = true ->
      Engine.init (loadExisting d) = Some h ->
      (context a <> None -> Engine.released (loadExisting d) = true) ->
      fst (handleDownloadModel d file seen a) = [AlertAlreadyExists] /\
      map filename (modelMetadata (snd (handleDownloadModel d file seen a)))
      = map filename (modelMetadata a) /\
      (forall sz l1 m l2,
          statExisting d = Some sz ->
          modelMetadata a = l1 ++ m :: l2 ->
          (forall x, In x l1 -> filename x <> file) ->
          filename m = file -> size m = None ->
          map size (modelMetadata (snd (handleDownloadModel d file seen a)))
          = map size l1 ++ Some sz :: map size l2)) /\
  (forall (d : Download) (file : str) (seen : list ModelMetadata) (a : App),
      fileExists d = true ->
      Engine.init (loadExisting d) = None \/
      (context a <> None /\ Engine.released (loadExisting d) = false) ->
      fst (handleDownloadModel d file seen a) =
      Transfer file :: map ProgressCallback (reported d) ++
      [ match transferred d, statDownloaded d with
        | true, Some _ => AlertSuccess
        | _, _ => AlertDownloadFailed
        end ]).
Proof.
  split.
  - intros d file seen a h He Hi Hr. unfold handleDownloadModel. rewrite He.
    set (a1 := match statExisting d with
               | Some sz =>
                   setModelMetadata (backfill file sz (modelMetadata a)) a
               | None => a
               end).
    assert (Hctx : context a1 = context a)
      by (subst a1; now destruct (statExisting d)).
    rewrite (loadModel_succeeds (loadExisting d) file seen a1 h Hi)
      by (now rewrite Hctx).
    cbn [fst snd]. split; [reflexivity|].
    destruct (loadModel_metadata (loadExisting d) file seen a1) as [Hn Hs].
    rewrite Hn, Hs. split.
    + subst a1. destruct (statExisting d); [|reflexivity].
      cbn [setModelMetadata modelMetadata]. apply backfill_names.
    + intros sz l1 m l2 Hst HM H1 Hm Hsz. subst a1. rewrite Hst.
      cbn [setModelMetadata modelMetadata]. rewrite HM.
      rewrite backfill_first by assumption.
      now rewrite map_app.
  - intros d file seen a He Hf. unfold handleDownloadModel. rewrite He.
    set (a1 := match statExisting d with
               | Some sz =>
                   setModelMetadata (backfill file sz (modelMetadata a)) a
               | None => a
               end).
    assert (Hctx : context a1 = context a)
      by (subst a1; now destruct (statExisting d)).
    rewrite loadModel_fails by (now rewrite Hctx).
    unfold download. destruct (transferred d); [|reflexivity].
    now destruct (statDownloaded d).
Qed.

Lemma existing_file_is_loaded_without_transfer_witness :
  fileExists present_file = true /\
  Engine.init (loadExisting present_file) = Some 1%nat /\
  (context (setModelMetadata [unsized_record] initial_App) <> None ->
   Engine.released (loadExisting present_file) = true) /\
  fst (handleDownloadModel present_file (lit "qwen2-instruct-q4.gguf")
         [unsized_record] (setModelMetadata [unsized_record] initial_App))
  = [AlertAlreadyExists] /\
  modelMetadata
    (snd (handleDownloadModel present_file (lit "qwen2-instruct-q4.gguf")
            [unsized_record] (setModelMetadata [unsized_record] initial_App)))
  = [one_record] /\
  fileExists refused_file = true /\
  (Engine.init (loadExisting refused_file) = None \/
   (context (setContext (Some 7%nat) (setEngine [7%nat] initial_App)) <> None /\
    Engine.released (loadExisting refused_file) = false)) /\
  fst (handleDownloadModel refused_file (lit "qwen2-instruct-q4.gguf") []
         (setContext (Some 7%nat) (setEngine [7%nat] initial_App)))
  = Transfer (lit "qwen2-instruct-q4.gguf") ::
    map ProgressCallback (reported refused_file) ++ [AlertSuccess].
Proof.
  assert (H1 : fileExists present_file = true) by reflexivity.
  assert (H2 : Engine.init (loadExisting present_file) = Some 1%nat)
    by reflexivity.
  assert (H3 : context (setModelMetadata [unsized_record] initial_App) <> None
               -> Engine.released (loadExisting present_file) = true)
    by reflexivity.
  assert (H4 : fileExists refused_file = true) by reflexivity.
  assert (H5 : Engine.init (loadExisting refused_file) = None \/
   (context (setContext (Some 7%nat) (setEngine [7%nat] initial_App)) <> None /\
    Engine.released (loadExisting refused_file) = false))
    by (left; reflexivity).
  repeat (split; [assumption|]).
  split.
  - exact (proj1 (proj1 existing_file_is_loaded_without_transfer present_file
                    (lit "qwen2-instruct-q4.gguf") [unsized_record]
                    (setModelMetadata [unsized_record] initial_App) 1%nat
                    H1 H2 H3)).
  - split; [vm_compute; reflexivity|].
    split; [exact H4|]. split; [exact H5|].
    exact (proj2 existing_file_is_loaded_without_transfer refused_file
             (lit "qwen2-instruct-q4.gguf") []
             (setContext (Some 7%nat) (setEngine [7%nat] initial_App))
             H4 H5).
Defined.

(** The second [loadModel] of the handler reads the [context] of the
    render that created the handler. When a model was loaded and the
    engine refuses the existing file, the state has no context any more,
    but the second call still finds one in its closure and releases
    again: a release that throws there ends the call before
    [initLlama], and the downloaded file is not loaded. *)
Example second_load_reads_the_closure :
  context
    (snd (handleDownloadModel
            {| fileExists := true; statExisting := Some 500%N;
               loadExisting :=
                 {| Engine.released := true; Engine.init := None |};
               reported := []; transferred := true;
               statDownloaded := Some 500%N;
               now := lit "2025-01-02T00:00:00.000Z";
               loadDownloaded :=
                 {| Engine.released := false; Engine.init := Some 2%nat |} |}
            (lit "qwen2-instruct-q4.gguf") []
            (setContext (Some 7%nat) (setEngine [7%nat] initial_App))))
  = None.
Proof. vm_compute. reflexivity. Qed.

End DownloadFacts.

(* ================================================================== *)
(** * More on the token callback *)
(* ================================================================== *)

Section StreamMore.

Import Chat Session.

Lemma trimStart_head (s : str) :
  match trimStart s with c :: _ => is_ws c = false | [] => True end.
Proof.
  induction s as [|c t IH]; [exact I|].
  simpl. destruct (is_ws c) eqn:E; [exact IH|exact E].
Qed.

Lemma trimStart_keeps_last (u : str) (c : char) :
  is_ws c = false -> exists u', trimStart (u ++ [c]) = u' ++ [c].
Proof.
  intros Hc. induction u as [|x u IH]; simpl.
  - rewrite Hc. now exists [].
  - destruct (is_ws x); [exact IH|]. now exists (x :: u).
Qed.

Lemma trim_head (s : str) :
  match trim s with c :: _ => is_ws c = false | [] => True end.
Proof.
  unfold trim, trimEnd. pose proof (trimStart_head s) as H.
  destruct (trimStart s) as [|c t]; [exact I|].
  destruct (trimStart_keeps_last (rev t) c H) as [u' Hu].
  cbn [rev]. rewrite Hu, rev_unit. exact H.
Qed.

Lemma trim_last (s : str) :
  match rev (trim s) with c :: _ => is_ws c = false | [] => True end.
Proof.
  unfold trim, trimEnd. rewrite rev_involutive. apply trimStart_head.
Qed.

(** The visible content never begins or ends with white space: during
    the whole stream the turn shows the text received so far without its
    leading and trailing white space. *)
Theorem visible_content_is_trimmed (l : list Message) (fragments : list str) :
  exists s m,
    onTokens (start, l ++ [placeholder]) fragments = Some (s, l ++ [m]) /\
    match content m with c :: _ => is_ws c = false | [] => True end /\
    match rev (content m) with c :: _ => is_ws c = false | [] => True end.
Proof.
  rewrite onTokens_last. do 2 eexists. split; [reflexivity|].
  destruct fragments as [|f fs]; [now split|].
  rewrite steps_content by easy. split; [apply trim_head|apply trim_last].
Qed.

Lemma steps_published (ts : list str) :
  forall sm, published sm -> published (steps sm ts).
Proof.
  induction ts as [|t ts IH]; intros sm H; [exact H|].
  rewrite steps_cons. apply IH. reflexivity.
Qed.

Lemma step_empty (sm : Stream * Message) : published sm -> step sm [] = sm.
Proof.
  destruct sm as [[cam ct inside] [r c th sh]]. unfold published, step.
  cbn [fst snd nextStream nextTurn currentAssistantMessage currentThought
       inThinkBlock role content thought showThought].
  intros ->. unfold nextStream, nextTurn.
  cbn [currentAssistantMessage currentThought inThinkBlock role content
       thought showThought].
  change (includes OPEN []) with false.
  change (includes CLOSE []) with false. change (closes []) with false.
  cbv iota. rewrite !app_nil_r. now destruct inside.
Qed.

(** An empty fragment is a no-op wherever it comes in the stream. *)
Theorem empty_fragment_changes_nothing
  (l : list Message) (pre post : list str) :
  onTokens (start, l ++ [placeholder]) (pre ++ [] :: post) =
  onTokens (start, l ++ [placeholder]) (pre ++ post).
Proof.
  rewrite !onTokens_last, !steps_app, steps_cons.
  rewrite step_empty; [reflexivity|].
  apply steps_published. reflexivity.
Qed.

(** A token that arrives after the cancellation wipes the notice: the log
    is the one that the token would have produced without the
    cancellation. *)
Theorem late_token_erases_notice
  (s : Stream) (l : list Message) (m : Message) (token : str) :
  exists noticed,
    stopGeneration true (l ++ [m]) = Some noticed /\
    onToken (s, noticed) token = onToken (s, l ++ [m]) token.
Proof.
  cbn [stopGeneration]. rewrite stopUpdater_last.
  destruct (Role_eqb (role m) assistant); eexists; (split; [reflexivity|]);
    rewrite !onToken_last; reflexivity.
Qed.

(** The callback rewrites the last turn of the log only, and of that turn
    neither the role nor the reasoning toggle; the text it accumulates is
    the concatenation of the tokens. *)
Theorem tokens_touch_last_turn_only
  (s : Stream) (l : list Message) (m : Message) (tokens : list str) :
  exists s' m',
    onTokens (s, l ++ [m]) tokens = Some (s', l ++ [m']) /\
    role m' = role m /\ showThought m' = showThought m /\
    currentAssistantMessage s' = currentAssistantMessage s ++ concat tokens.
Proof.
  rewrite onTokens_last. do 2 eexists. split; [reflexivity|].
  rewrite steps_message. cbn [fst]. split; [|split; [|reflexivity]].
  - revert s m. induction tokens as [|t ts IH]; intros s m; [reflexivity|].
    rewrite steps_cons. unfold step. cbn [fst snd]. now rewrite IH.
  - revert s m. induction tokens as [|t ts IH]; intros s m; [reflexivity|].
    rewrite steps_cons. unfold step. cbn [fst snd]. now rewrite IH.
Qed.

End StreamMore.

(* ================================================================== *)
(** * Sending, and the samples shown under the turns *)
(* ================================================================== *)

Section SendMore.

Import Chat Session.

Lemma steps_role (ts : list str) :
  forall sm, role (snd (steps sm ts)) = role (snd sm).
Proof.
  induction ts as [|u ts IH]; intros sm; [reflexivity|].
  now rewrite steps_cons, IH.
Qed.

Lemma trimStart_blank (s : str) : forallb is_ws s = true -> trimStart s = [].
Proof.
  induction s as [|c t IH]; [reflexivity|]. simpl.
  intros H. apply andb_true_iff in H as [-> H]. now apply IH.
Qed.

(** Nothing is sent without a loaded model, and nothing is sent when the
    input holds white space only: the state stays as it is. *)
Theorem nothing_sent (userInput : str) (c : Completion) (a : App) :
  context a = None \/ forallb is_ws userInput = true ->
  handleSendMessage userInput c a = Some a.
Proof.
  intros [H|H]; unfold handleSendMessage.
  - now rewrite H.
  - destruct (context a); [|reflexivity].
    unfold trim. now rewrite trimStart_blank.
Qed.

Lemma nothing_sent_witness :
  (context (setContext (Some 1%nat) (setEngine [1%nat] initial_App)) = None \/
   forallb is_ws (lit "   ") = true) /\
  handleSendMessage (lit "   ") (Resolved [lit "ok"] 1234%N)
    (setContext (Some 1%nat) (setEngine [1%nat] initial_App))
  = Some (setContext (Some 1%nat) (setEngine [1%nat] initial_App)).
Proof.
  assert (H : context (setContext (Some 1%nat) (setEngine [1%nat] initial_App))
              = None \/ forallb is_ws (lit "   ") = true)
    by (right; reflexivity).
  split; [exact H|].
  exact (nothing_sent (lit "   ") (Resolved [lit "ok"] 1234%N) _ H).
Defined.

(** A message sent to a loaded model appends to the log the user turn
    with the input as typed and one assistant turn, and changes no earlier
    turn, whether the completion resolves or rejects; the list of samples
    gets the sample of the run when the completion resolves and stays as it
    is when it rejects. *)
Theorem sent_message_adds_two_turns
  (input : str) (c : Completion) (a : App) (h : Handle) :
  context a = Some h -> trim input <> [] ->
  exists a' m,
    handleSendMessage input c a = Some a' /\
    conversation a' =
      conversation a ++
      [ {| role := user; content := input; thought := None;
           showThought := None |}; m ] /\
    role m = assistant /\
    tokensPerSecond a' =
      tokensPerSecond a ++
      match c with Resolved _ pps => [pps] | Rejected _ => [] end /\
    context a' = context a /\ modelMetadata a' = modelMetadata a.
Proof.
  intros Hc Hin. unfold handleSendMessage. rewrite Hc.
  destruct (trim input) as [|x t]; [contradiction|].
  rewrite onTokens_last.
  destruct c as [ts pps|ts]; do 2 eexists;
    (split; [reflexivity|]); cbn [conversation tokensPerSecond
      setConversation setTokensPerSecond tokens_of context modelMetadata];
    rewrite <- app_assoc; cbn [app]; rewrite ?app_nil_r;
    repeat split; try apply steps_role; assumption.
Qed.

Lemma sent_message_adds_two_turns_witness :
  context (setContext (Some 1%nat) (setEngine [1%nat] initial_App))
  = Some 1%nat /\
  trim (lit "hi") <> [] /\
  exists a' m,
    handleSendMessage (lit "hi") (Rejected [lit "o"])
      (setContext (Some 1%nat) (setEngine [1%nat] initial_App)) = Some a' /\
    conversation a' =
      conversation (setContext (Some 1%nat) (setEngine [1%nat] initial_App))
      ++ [ {| role := user; content := lit "hi"; thought := None;
              showThought := None |}; m ] /\
    role m = assistant /\
    tokensPerSecond a' =
      tokensPerSecond (setContext (Some 1%nat) (setEngine [1%nat] initial_App))
      ++ [] /\
    context a' = context (setContext (Some 1%nat) (setEngine [1%nat] initial_App))
    /\ modelMetadata a' =
       modelMetadata (setContext (Some 1%nat) (setEngine [1%nat] initial_App)).
Proof.
  assert (H1 : context (setContext (Some 1%nat) (setEngine [1%nat] initial_App))
               = Some 1%nat) by reflexivity.
  assert (H2 : trim (lit "hi") <> []) by (vm_compute; discriminate).
  split; [exact H1|]. split; [exact H2|].
  exact (sent_message_adds_two_turns (lit "hi") (Rejected [lit "o"]) _ 1%nat
           H1 H2).
Defined.

(** While the log and the samples are in step, a run that resolves keeps
    them in step, and the sample shown under its assistant turn, the last
    turn of the log, is its own. *)
Theorem resolved_run_shows_its_sample
  (input : str) (tokens : list str) (pps : Sample) (a : App) (h : Handle) :
  context a = Some h -> trim input <> [] -> in_step a ->
  exists a' m,
    handleSendMessage input (Resolved tokens pps) a = Some a' /\
    in_step a' /\
    nth_error (skipn 1 (conversation a')) (length (conversation a)) = Some m /\
    role m = assistant /\
    length (skipn 1 (conversation a')) = S (length (conversation a)) /\
    shownSample a' (length (conversation a)) = Some pps.
Proof.
  intros Hc Hin Hstep. unfold handleSendMessage. rewrite Hc.
  destruct (trim input) as [|x t]; [contradiction|].
  rewrite onTokens_last. do 2 eexists. split; [reflexivity|].
  unfold in_step, shownSample in *.
  cbn [conversation tokensPerSecond setConversation setTokensPerSecond
       tokens_of fst snd].
  rewrite <- !app_assoc. cbn [app].
  destruct (conversation a) as [|sys rest] eqn:E; [discriminate|].
  cbn [app skipn length] in *.
  rewrite !length_app. cbn [length].
  repeat split.
  - lia.
  - rewrite nth_error_app2 by lia.
    replace (S (length rest) - length rest)%nat with 1%nat by lia.
    reflexivity.
  - apply steps_role.
  - lia.
  - assert (Hdiv : (S (length rest) / 2 = length (tokensPerSecond a))%nat)
      by (symmetry; apply (Nat.div_unique _ 2 _ 1); lia).
    rewrite Hdiv, nth_error_app2 by lia. now rewrite Nat.sub_diag.
Qed.

Lemma resolved_run_shows_its_sample_witness :
  context (setContext (Some 1%nat) (setEngine [1%nat] initial_App))
  = Some 1%nat /\
  trim (lit "hi") <> [] /\
  in_step (setContext (Some 1%nat) (setEngine [1%nat] initial_App)) /\
  exists a' m,
    handleSendMessage (lit "hi") (Resolved [lit "ok"] 1234%N)
      (setContext (Some 1%nat) (setEngine [1%nat] initial_App)) = Some a' /\
    in_step a' /\
    nth_error (skipn 1 (conversation a'))
      (length (conversation
                 (setContext (Some 1%nat) (setEngine [1%nat] initial_App))))
    = Some m /\
    role m = assistant /\
    length (skipn 1 (conversation a')) =
    S (length (conversation
                 (setContext (Some 1%nat) (setEngine [1%nat] initial_App)))) /\
    shownSample a'
      (length (conversation
                 (setContext (Some 1%nat) (setEngine [1%nat] initial_App))))
    = Some 1234%N.
Proof.
  assert (H1 : context (setContext (Some 1%nat) (setEngine [1%nat] initial_App))
               = Some 1%nat) by reflexivity.
  assert (H2 : trim (lit "hi") <> []) by (vm_compute; discriminate).
  assert (H3 : in_step (setContext (Some 1%nat) (setEngine [1%nat] initial_App)))
    by reflexivity.
  split; [exact H1|]. split; [exact H2|]. split; [exact H3|].
  exact (resolved_run_shows_its_sample (lit "hi") [lit "ok"] 1234%N _ 1%nat
           H1 H2 H3).
Defined.

End SendMore.

(* ================================================================== *)
(** * The reasoning toggle, and leaving the conversation *)
(* ================================================================== *)

Section SessionFacts.

Import Chat Session Engine.

Lemma toggleFrom_after (prev : list Message) :
  forall from messageIndex,
    (messageIndex < from)%nat -> toggleFrom from messageIndex prev = prev.
Proof.
  induction prev as [|m rest IH]; intros from i H; [reflexivity|].
  cbn [toggleFrom]. destruct (Nat.eqb_spec from i); [lia|].
  now rewrite IH by lia.
Qed.

Lemma toggleFrom_split (prev : list Message) :
  forall from messageIndex,
    (from <= messageIndex)%nat ->
    toggleFrom from messageIndex prev =
    firstn (messageIndex - from) prev ++
    match nth_error prev (messageIndex - from) with
    | Some m => [flipped m]
    | None => []
    end ++ skipn (S (messageIndex - from)) prev.
Proof.
  induction prev as [|m rest IH]; intros from i H.
  - cbn [toggleFrom]. now destruct (i - from)%nat.
  - cbn [toggleFrom]. destruct (Nat.eqb_spec from i) as [->|Hne].
    + rewrite Nat.sub_diag. cbn. now rewrite toggleFrom_after by lia.
    + rewrite IH by lia.
      replace (i - from)%nat with (S (i - S from)) by lia. reflexivity.
Qed.

(** [toggleThought] changes the turn at the index and no other, and of
    that turn the toggle only; an index outside the log changes nothing. *)
Theorem toggle_changes_one_turn (messageIndex : nat) (prev : list Message) :
  toggleThought messageIndex prev =
  firstn messageIndex prev ++
  match nth_error prev messageIndex with
  | Some m =>
      [ {| role := role m; content := content m; thought := thought m;
           showThought :=
             Some (negb (match showThought m with
                         | Some b => b
                         | None => false
                         end)) |} ]
  | None => []
  end ++ skipn (S messageIndex) prev.
Proof.
  unfold toggleThought. rewrite toggleFrom_split by lia.
  now rewrite Nat.sub_0_r.
Qed.

Lemma flipped_twice (m : Message) (b : bool) :
  showThought m = Some b -> flipped (flipped m) = m.
Proof.
  destruct m as [r c t s]. cbn. intros ->. unfold flipped. cbn.
  now rewrite negb_involutive.
Qed.

Lemma toggleFrom_twice (prev : list Message) :
  forall from messageIndex m b,
    (from <= messageIndex)%nat ->
    nth_error prev (messageIndex - from) = Some m ->
    showThought m = Some b ->
    toggleFrom from messageIndex (toggleFrom from messageIndex prev) = prev.
Proof.
  induction prev as [|m0 rest IH]; intros from i m b Hle Hm Hb;
    [reflexivity|].
  cbn [toggleFrom]. destruct (Nat.eqb_spec from i) as [->|Hne].
  - rewrite Nat.sub_diag in Hm. injection Hm as ->.
    rewrite !toggleFrom_after by lia. now rewrite (flipped_twice m b).
  - f_equal. apply (IH (S from) i m b); [lia| |exact Hb].
    replace (i - from)%nat with (S (i - S from)) in Hm by lia. exact Hm.
Qed.

(** Toggling twice gives the log back, for a turn whose toggle is set; the
    placeholder of every assistant turn has it set. *)
Theorem toggle_twice (messageIndex : nat) (prev : list Message)
  (m : Message) (b : bool) :
  nth_error prev messageIndex = Some m -> showThought m = Some b ->
  toggleThought messageIndex (toggleThought messageIndex prev) = prev.
Proof.
  intros Hm Hb. unfold toggleThought.
  apply (toggleFrom_twice prev 0 messageIndex m b); [lia| |exact Hb].
  now rewrite Nat.sub_0_r.
Qed.

Lemma toggle_twice_witness :
  nth_error (INITIAL_CONVERSATION ++ [placeholder]) 1 = Some placeholder /\
  showThought placeholder = Some false /\
  toggleThought 1 (toggleThought 1 (INITIAL_CONVERSATION ++ [placeholder]))
  = INITIAL_CONVERSATION ++ [placeholder].
Proof.
  assert (H1 : nth_error (INITIAL_CONVERSATION ++ [placeholder]) 1
               = Some placeholder) by reflexivity.
  assert (H2 : showThought placeholder = Some false) by reflexivity.
  split; [exact H1|]. split; [exact H2|].
  exact (toggle_twice 1 (INITIAL_CONVERSATION ++ [placeholder]) placeholder
           false H1 H2).
Defined.

End SessionFacts.

(* ================================================================== *)
(** * More on loading *)
(* ================================================================== *)

Section LoadMore.

Import Chat Session Engine.

Lemma last_app_cons {A} (l : list A) (x : A) (l' : list A) (d : A) :
  last (l ++ x :: l') d = last (x :: l') d.
Proof.
  induction l as [|y l IH]; [reflexivity|].
  cbn [app]. rewrite <- IH. cbn [last].
  destruct (l ++ x :: l') eqn:E; [now destruct l|reflexivity].
Qed.

Lemma loads_cons (calls : list (Calls * str * list ModelMetadata)) (a : App) :
  exists rest, loads calls a = a :: rest.
Proof. destruct calls as [|[[c n] s] calls]; eexists; reflexivity. Qed.

Lemma loads_last_settled (calls : list (Calls * str * list ModelMetadata)) :
  forall a d, settled a -> settled (last (loads calls a) d).
Proof.
  induction calls as [|[[c modelName] seen] rest IH]; intros a d H.
  - exact H.
  - cbn [loads].
    destruct (loads_cons rest (after (loadModel c modelName seen a) a))
      as [tl E].
    change (a :: fst (loadModel c modelName seen a) ++
            loads rest (after (loadModel c modelName seen a) a))
      with ((a :: fst (loadModel c modelName seen a)) ++
            loads rest (after (loadModel c modelName seen a) a)).
    rewrite E, last_app_cons, <- E. apply IH.
    now apply loadModel_settled.
Qed.

(** After any sequence of [loadModel] calls that do not overlap, each
    made by the render that follows the end of the one before, the
    engine holds exactly the context that [context] refers to: no context
    is left alive that the component has lost, and none is referred to
    that is gone. *)
Theorem loads_leave_no_orphan
  (calls : list (Calls * str * list ModelMetadata)) :
  engine (last (loads calls initial_App) initial_App) =
  match context (last (loads calls initial_App) initial_App) with
  | Some h => [h]
  | None => []
  end.
Proof. apply (loads_last_settled calls initial_App initial_App). reflexivity. Qed.

(** What a run of [loadModel] leaves behind. It returns [true] exactly
    when the context of [initLlama] is installed, alone in the engine. It
    returns [false] with the state untouched when the release fails, or
    when no model was loaded and [initLlama] fails; when [initLlama] fails
    after the release, the previous model is unloaded and stays so. A run
    that finds a model loaded and releases it resets the conversation; no
    run touches the samples. *)
Theorem load_outcome (c : Calls) (modelName : str)
  (seen : list ModelMetadata) (a : App) :
  settled a ->
  tokensPerSecond (after (loadModel c modelName seen a) a) = tokensPerSecond a
  /\
  ((snd (loadModel c modelName seen a) = true /\
    exists h,
      init c = Some h /\
      context (after (loadModel c modelName seen a) a) = Some h /\
      engine (after (loadModel c modelName seen a) a) = [h] /\
      conversation (after (loadModel c modelName seen a) a) =
      match context a with
      | Some _ => INITIAL_CONVERSATION
      | None => conversation a
      end)
   \/
   (snd (loadModel c modelName seen a) = false /\
    after (loadModel c modelName seen a) a = a /\
    (released c = false \/ context a = None /\ init c = None))
   \/
   (snd (loadModel c modelName seen a) = false /\
    init c = None /\ released c = true /\
    after (loadModel c modelName seen a) a =
    setConversation INITIAL_CONVERSATION
      (setContext None (setEngine [] a)))).
Proof.
  unfold settled, loadModel, initSteps, after. intros H.
  destruct (context a) as [h|] eqn:Hc.
  - destruct (released c) eqn:Hr.
    + destruct (init c) as [h'|] eqn:Hi.
      * split;
          [|left; split; [|exists h'; split; [reflexivity|]]];
          destruct (find _ seen) as [mm|];
          try destruct (str_eqb (format mm) UNKNOWN); cbn; auto.
      * split; [reflexivity|]. right. right. cbn. auto.
    + split; [reflexivity|]. right. left. cbn. auto.
  - destruct (init c) as [h'|] eqn:Hi.
    + split;
        [|left; split; [|exists h'; split; [reflexivity|]]];
        destruct (find _ seen) as [mm|];
        try destruct (str_eqb (format mm) UNKNOWN); cbn; rewrite ?H; auto.
    + split; [reflexivity|]. right. left. cbn. auto.
Qed.

Lemma load_outcome_witness :
  settled (setContext (Some 1%nat) (setEngine [1%nat] initial_App)) /\
  after (loadModel {| released := true; init := None |} (lit "m.gguf") []
           (setContext (Some 1%nat) (setEngine [1%nat] initial_App)))
    (setContext (Some 1%nat) (setEngine [1%nat] initial_App))
  = initial_App /\
  tokensPerSecond
    (after (loadModel {| released := true; init := None |} (lit "m.gguf") []
              (setContext (Some 1%nat) (setEngine [1%nat] initial_App)))
       (setContext (Some 1%nat) (setEngine [1%nat] initial_App)))
  = tokensPerSecond (setContext (Some 1%nat) (setEngine [1%nat] initial_App)).
Proof.
  assert (H : settled (setContext (Some 1%nat) (setEngine [1%nat] initial_App)))
    by reflexivity.
  split; [exact H|]. split; [reflexivity|].
  exact (proj1 (load_outcome {| released := true; init := None |}
                  (lit "m.gguf") []
                  (setContext (Some 1%nat) (setEngine [1%nat] initial_App))
                  H)).
Defined.

(** Leaving the conversation, with the contexts released: nothing can be
    sent until a model is loaded, the log and the samples are in step
    again, the metadata is as it was, and whatever [loadModel] calls
    follow one after another, each made by the render that follows the
    end of the one before, no more than one context is alive at any
    time. *)
Theorem back_unloads (a : App) (userInput : str) (c : Completion)
  (calls : list (Calls * str * list ModelMetadata)) :
  handleSendMessage userInput c (handleBackToModelSelection true a)
  = Some (handleBackToModelSelection true a) /\
  in_step (handleBackToModelSelection true a) /\
  conversation (handleBackToModelSelection true a) = INITIAL_CONVERSATION /\
  modelMetadata (handleBackToModelSelection true a) = modelMetadata a /\
  Forall (fun x => (length (engine x) <= 1)%nat)
         (loads calls (handleBackToModelSelection true a)).
Proof.
  repeat split. apply loads_settled. reflexivity.
Qed.

End LoadMore.

(* ================================================================== *)
(** * More on reconciliation and persistence *)
(* ================================================================== *)

Section ReconcileMore.

Import Meta.

Lemma filter_all {A} (p : A -> bool) (l : list A) :
  (forall x, In x l -> p x = true) -> filter p l = l.
Proof.
  induction l as [|x l IH]; intros H; [reflexivity|].
  simpl. rewrite (H x) by now left. f_equal. apply IH.
  intros y Hy. apply H. now right.
Qed.

Lemma newFiles_nil (files : list str) : newFiles files [] = ggufFiles files.
Proof. unfold newFiles. now apply filter_all. Qed.

Lemma checkDownloadedModels_result (fs : Fs) (files : list str)
  (seen : list ModelMetadata) (a : App) :
  readDir fs = Some files ->
  modelMetadata (checkDownloadedModels fs seen a) =
  modelMetadata a ++ map (newRecord fs) (newFiles files seen) /\
  downloadedModels (checkDownloadedModels fs seen a) = ggufFiles files.
Proof.
  intros H. unfold checkDownloadedModels. rewrite H. cbv zeta.
  destruct (newFiles files seen) as [|f new]; cbn; [|easy].
  now rewrite app_nil_r.
Qed.

Lemma reconcile_appends_every_model_aux (fs : Fs) (files : list str) (a : App) :
  readDir fs = Some files ->
  modelMetadata (reconcileEffect fs a) =
  modelMetadata a ++ map (newRecord fs) (ggufFiles files) /\
  downloadedModels (reconcileEffect fs a) = ggufFiles files.
Proof.
  intros H. unfold reconcileEffect.
  destruct (checkDownloadedModels_result fs files (modelMetadata initial_App)
              a H) as [H1 H2].
  rewrite H1, H2. cbn [initial_App modelMetadata]. now rewrite newFiles_nil.
Qed.

(** The startup effect appends one record for every [.gguf] file of the
    directory, whatever records the list already holds, and removes or
    changes none; the list of downloaded models becomes the [.gguf] names
    of the directory, in its order. When the directory cannot be read the
    state stays as it is. *)
Theorem reconcile_appends_every_model (fs : Fs) (files : list str) (a : App) :
  readDir fs = Some files ->
  modelMetadata (reconcileEffect fs a) =
  modelMetadata a ++ map (newRecord fs) (ggufFiles files) /\
  downloadedModels (reconcileEffect fs a) = ggufFiles files /\
  reconcileEffect {| readDir := None; stat := stat fs; clock := clock fs |} a
  = a.
Proof.
  intros H. unfold reconcileEffect.
  destruct (checkDownloadedModels_result fs files (modelMetadata initial_App)
              a H) as [H1 H2].
  rewrite H1, H2. cbn [initial_App modelMetadata]. rewrite newFiles_nil.
  repeat split.
Qed.

Lemma reconcile_appends_every_model_witness :
  readDir one_model = Some [lit "qwen2-instruct-q4.gguf"; lit "notes.txt"] /\
  modelMetadata
    (reconcileEffect one_model (setModelMetadata [one_record] initial_App))
  = modelMetadata (setModelMetadata [one_record] initial_App) ++
    map (newRecord one_model)
      (ggufFiles [lit "qwen2-instruct-q4.gguf"; lit "notes.txt"]).
Proof.
  assert (H : readDir one_model =
              Some [lit "qwen2-instruct-q4.gguf"; lit "notes.txt"])
    by reflexivity.
  split; [exact H|].
  exact (proj1 (reconcile_appends_every_model one_model _
                  (setModelMetadata [one_record] initial_App) H)).
Defined.

(** Whatever list [checkDownloadedModels] reads, it keeps every record of
    the state in place and only appends; each record it appends is for a
    [.gguf] file of the directory that the list it read does not name. *)
Theorem reconcile_only_appends (fs : Fs) (seen : list ModelMetadata) (a : App) :
  exists added,
    modelMetadata (checkDownloadedModels fs seen a) = modelMetadata a ++ added
    /\
    Forall (fun r =>
              endsWith (lit ".gguf") (filename r) = true /\
              existsb (str_eqb (filename r)) (map filename seen) = false /\
              match readDir fs with
              | Some files => In (filename r) files
              | None => False
              end) added.
Proof.
  destruct (readDir fs) as [files|] eqn:H.
  - exists (map (newRecord fs) (newFiles files seen)).
    split; [now apply checkDownloadedModels_result|].
    apply Forall_forall. intros r Hr.
    apply in_map_iff in Hr as (f & <- & Hf). cbn [newRecord filename].
    unfold newFiles, ggufFiles in Hf. rewrite !filter_In in Hf.
    destruct Hf as [[Hin Hext] Hnew]. apply negb_true_iff in Hnew. auto.
  - exists []. unfold checkDownloadedModels. rewrite H.
    now rewrite app_nil_r.
Qed.


End ReconcileMore.

Section PersistMore.

Import Meta Catalog.


Lemma mutate_holds_records (written : bool)
  (f : list ModelMetadata -> list ModelMetadata)
  (st : list ModelMetadata * option str) :
  holds_records (snd st) -> holds_records (snd (mutate written f st)).
Proof.
  intros H. unfold mutate, persistEffect, saveModelMetadata. cbn [fst snd].
  destruct (f (fst st)) as [|m l]; [exact H|].
  cbn [length Nat.ltb Nat.leb]. destruct written; [|exact H].
  now exists m, l.
Qed.

(** Starting without a file, whatever changes are made to the list and
    whichever writes succeed, the file never holds the empty list: reading
    it yields nothing or a list with a record in it. A list that has
    become empty is therefore never what the next start reads. *)
Theorem file_never_holds_empty_list
  (changes : list (bool * (list ModelMetadata -> list ModelMetadata))) :
  match loadModelMetadata
          (snd (fold_left (fun st wf => mutate (fst wf) (snd wf) st) changes
                  ([], None))) with
  | Some [] => False
  | _ => True
  end.
Proof.
  assert (H : forall st, holds_records (snd st) ->
    holds_records
      (snd (fold_left (fun st wf => mutate (fst wf) (snd wf) st) changes st))).
  { induction changes as [|[w f] rest IH]; intros st Hst; [exact Hst|].
    cbn [fold_left fst snd]. apply IH. now apply mutate_holds_records. }
  specialize (H ([], None) I).
  destruct (snd (fold_left _ changes ([], None))) as [text|]; [|exact I].
  destruct H as (m & l & ->). cbn [loadModelMetadata].
  now rewrite parse_stringify.
Qed.

End PersistMore.

(* ================================================================== *)
(** * More on the download and on the records of a file *)
(* ================================================================== *)

Section RecordFacts.

Import Meta Catalog.

Lemma findIndex_nth {A} (p : A -> bool) (l : list A) :
  forall i, findIndex p l = Some i ->
            exists m, nth_error l i = Some m /\ p m = true.
Proof.
  induction l as [|x l IH]; intros i; simpl; [discriminate|].
  destruct (p x) eqn:E.
  - intros [= <-]. now exists x.
  - destruct (findIndex p l) as [j|]; [|discriminate].
    intros [= <-]. now apply IH.
Qed.

Lemma findIndex_none {A} (p : A -> bool) (l : list A) :
  findIndex p l = None -> forall x, In x l -> p x = false.
Proof.
  induction l as [|y l IH]; simpl; [easy|].
  destruct (p y) eqn:E; [discriminate|].
  destruct (findIndex p l); [discriminate|].
  intros _ x [<-|Hx]; [exact E|now apply IH].
Qed.

Lemma find_setAt {A} (p : A -> bool) (x : A) (l : list A) :
  forall i, findIndex p l = Some i -> p x = true ->
            find p (setAt i x l) = Some x.
Proof.
  induction l as [|y l IH]; intros i; simpl; [discriminate|].
  destruct (p y) eqn:E.
  - intros [= <-] Hx. simpl. now rewrite Hx.
  - destruct (findIndex p l) as [j|]; [|discriminate].
    intros [= <-] Hx. simpl. rewrite E. now apply IH.
Qed.

Lemma find_snoc {A} (p : A -> bool) (x : A) (l : list A) :
  findIndex p l = None -> p x = true -> find p (l ++ [x]) = Some x.
Proof.
  intros H Hx. induction l as [|y l IH]; simpl in *; [now rewrite Hx|].
  destruct (p y); [discriminate|].
  destruct (findIndex p l); [discriminate|]. now apply IH.
Qed.

Lemma find_upsert (file : str) (new : ModelMetadata)
  (prev : list ModelMetadata) :
  filename new = file ->
  find (fun m => str_eqb (filename m) file) (upsert file new prev) = Some new.
Proof.
  intros H. unfold upsert.
  destruct (findIndex _ prev) as [i|] eqn:E.
  - apply find_setAt; [exact E|]. now apply str_eqb_eq.
  - apply find_snoc; [exact E|]. now apply str_eqb_eq.
Qed.

(** The updater after a download never makes a second record for a file:
    a list without two records of the same file keeps that property, its
    record of the file is the new one, and it grows by one record exactly
    when the file had none. *)
Theorem upsert_keeps_names_unique (file : str) (new : ModelMetadata)
  (prev : list ModelMetadata) :
  filename new = file ->
  NoDup (map filename prev) ->
  NoDup (map filename (upsert file new prev)) /\
  find (fun m => str_eqb (filename m) file) (upsert file new prev) = Some new
  /\
  length (upsert file new prev) =
  if existsb (str_eqb file) (map filename prev)
  then length prev else S (length prev).
Proof.
  intros Hn Hd. split; [|split; [now apply find_upsert|]]; unfold upsert;
    destruct (findIndex _ prev) as [i|] eqn:E.
  - destruct (findIndex_nth _ _ _ E) as (m & Hm & Hp).
    apply str_eqb_eq in Hp.
    rewrite (setAt_names i new prev m Hm); [exact Hd|congruence].
  - rewrite map_app. cbn [map]. rewrite Hn.
    apply NoDup_app; [exact Hd|repeat constructor; easy|].
    intros x Hx [<-|[]]. apply in_map_iff in Hx as (m & Hm & Hin).
    apply (findIndex_none _ _ E) in Hin. rewrite Hm, str_eqb_refl in Hin.
    discriminate.
  - destruct (findIndex_nth _ _ _ E) as (m & Hm & Hp).
    apply str_eqb_eq in Hp.
    assert (Hex : existsb (str_eqb file) (map filename prev) = true).
    { apply existsb_name, in_map_iff. exists m. split; [exact Hp|].
      now apply nth_error_In in Hm. }
    rewrite Hex. clear -Hm. revert i Hm.
    induction prev as [|y l IH]; intros [|i] H; try discriminate;
      cbn in *; [reflexivity|]. f_equal. now apply IH.
  - assert (Hex : existsb (str_eqb file) (map filename prev) = false).
    { destruct (existsb _ _) eqn:Hex; [|reflexivity].
      apply existsb_name, in_map_iff in Hex as (m & Hm & Hin).
      apply (findIndex_none _ _ E) in Hin. rewrite Hm, str_eqb_refl in Hin.
      discriminate. }
    rewrite Hex, length_app. cbn. lia.
Qed.

Lemma upsert_keeps_names_unique_witness :
  filename one_record = lit "qwen2-instruct-q4.gguf" /\
  NoDup (map filename [unsized_record]) /\
  NoDup (map filename
           (upsert (lit "qwen2-instruct-q4.gguf") one_record [unsized_record]))
  /\
  upsert (lit "qwen2-instruct-q4.gguf") one_record [unsized_record]
  = [one_record].
Proof.
  assert (H1 : filename one_record = lit "qwen2-instruct-q4.gguf")
    by reflexivity.
  assert (H2 : NoDup (map filename [unsized_record]))
    by (repeat constructor; easy).
  split; [exact H1|]. split; [exact H2|]. split; [|reflexivity].
  exact (proj1 (upsert_keeps_names_unique (lit "qwen2-instruct-q4.gguf")
                  one_record [unsized_record] H1 H2)).
Defined.

Lemma Forall2_setAt {A} (R : A -> A -> Prop) (x : A) (l : list A) :
  (forall y, R y y) ->
  forall i m, nth_error l i = Some m -> R m x -> Forall2 R l (setAt i x l).
Proof.
  intros Hrefl. induction l as [|y l IH]; intros [|i] m H Hr;
    try discriminate; cbn in *.
  - injection H as ->. constructor; [exact Hr|].
    clear -Hrefl. induction l; constructor; auto.
  - constructor; [apply Hrefl|]. now apply (IH i m).
Qed.

(** Filling in the size of an existing file changes no more than the size
    of one record, and only a size that is missing or zero: every record
    keeps its file name, format and date, and a size that is set and not
    zero stays. *)
Theorem backfill_touches_missing_sizes_only
  (file : str) (sz : N) (l : list ModelMetadata) :
  Forall2 (fun old new =>
             filename new = filename old /\ format new = format old /\
             downloadDate new = downloadDate old /\
             (size new = size old \/
              noSize old = true /\ filename old = file /\ size new = Some sz))
          l (backfill file sz l).
Proof.
  assert (Hrefl : forall l : list ModelMetadata,
    Forall2 (fun old new =>
             filename new = filename old /\ format new = format old /\
             downloadDate new = downloadDate old /\
             (size new = size old \/
              noSize old = true /\ filename old = file /\ size new = Some sz))
          l l).
  { intros l0. induction l0; constructor; auto. }
  unfold backfill. destruct (findIndex _ l) as [i|] eqn:E; [|apply Hrefl].
  destruct (findIndex_nth _ _ _ E) as (m & Hm & Hp). rewrite Hm.
  destruct (noSize m) eqn:Hs; [|apply Hrefl].
  apply (Forall2_setAt _ _ l) with (m := m); [auto|exact Hm|].
  apply str_eqb_eq in Hp. cbn. repeat split. right. repeat split; assumption.
Qed.

Lemma find_removed {A} (p : A -> bool) (l : list A) :
  find p (filter (fun x => negb (p x)) l) = None.
Proof.
  induction l as [|x l IH]; [reflexivity|]. simpl.
  destruct (p x) eqn:E; simpl; [exact IH|]. now rewrite E.
Qed.

(** A deleted model is forgotten: no record of the file is left, so its
    format reads [Unknown] and its size is unknown, and it is no longer
    among the downloaded models; the records of the other files stay, in
    their order. The engine is not touched: a loaded model stays loaded,
    with its conversation. When the file is not there, the user does not
    confirm, or the unlink fails, nothing changes. *)
Theorem deleted_model_is_forgotten (name : str) (a : App) (p c u : bool) :
  getModelFormatInfo name (deleteModel true true true name a) = Engine.UNKNOWN
  /\
  modelSize name (deleteModel true true true name a) = None /\
  Forall (fun m => str_eqb (filename m) name = false)
         (modelMetadata (deleteModel true true true name a)) /\
  existsb (str_eqb name) (downloadedModels (deleteModel true true true name a))
  = false /\
  modelMetadata (deleteModel true true true name a) =
  filter (fun m => negb (str_eqb (filename m) name)) (modelMetadata a) /\
  context (deleteModel true true true name a) = context a /\
  engine (deleteModel true true true name a) = engine a /\
  conversation (deleteModel true true true name a) = conversation a /\
  deleteModel false c u name a = a /\
  deleteModel p false u name a = a /\
  deleteModel p c false name a = a.
Proof.
  unfold getModelFormatInfo, modelSize, deleteModel.
  cbn [andb setModelMetadata setDownloadedModels modelMetadata
       downloadedModels context engine conversation].
  unfold removeRecord.
  rewrite (find_removed (fun m => str_eqb (filename m) name)).
  repeat split.
  - apply Forall_forall. intros m Hm. apply filter_In in Hm as [_ Hm].
    now apply negb_true_iff.
  - destruct (existsb _ _) eqn:E; [|reflexivity].
    apply existsb_name, filter_In in E as [_ E].
    now rewrite str_eqb_refl in E.
  - now destruct p.
  - now destruct p, c.
Qed.

End RecordFacts.

Section DownloadMore.

Import Meta Catalog.

Lemma loadModelFrom_lists (seenContext : option Handle) (c : Engine.Calls)
  (file : str) (seen : list ModelMetadata) (a : App) :
  downloadedModels
    (Engine.after (Engine.loadModelFrom seenContext c file seen a) a)
  = downloadedModels a /\
  (modelMetadata
     (Engine.after (Engine.loadModelFrom seenContext c file seen a) a)
   = modelMetadata a \/
   modelMetadata
     (Engine.after (Engine.loadModelFrom seenContext c file seen a) a)
   = map (Engine.fixFormat file (selectedModelFormat a)) (modelMetadata a)).
Proof.
  unfold Engine.loadModelFrom, Engine.releaseSteps, Engine.initSteps,
    Engine.after.
  destruct seenContext; [destruct (Engine.released c)|];
    try (split; [reflexivity|left; reflexivity]);
    (destruct (Engine.init c); [|split; [reflexivity|left; reflexivity]]);
    cbn [last];
    (destruct (find _ seen) as [mm|];
       [destruct (str_eqb (format mm) Engine.UNKNOWN)|]);
    cbn; auto.
Qed.

Lemma find_fixFormat (file fmt : str) (l : list ModelMetadata) :
  find (fun m => str_eqb (filename m) file) (map (Engine.fixFormat file fmt) l)
  = option_map (Engine.fixFormat file fmt)
      (find (fun m => str_eqb (filename m) file) l).
Proof.
  induction l as [|m l IH]; [reflexivity|]. cbn [map find].
  assert (E : filename (Engine.fixFormat file fmt m) = filename m)
    by (unfold Engine.fixFormat; now destruct (str_eqb (filename m) file)).
  rewrite E. destruct (str_eqb (filename m) file); [reflexivity|exact IH].
Qed.

(** A download that succeeds, of a file that was not there: the transfer
    is made once, its progress reaches the callback in order, and success
    is reported; afterwards the file is among the downloaded models, the
    format read for it is the selected one and its size the measured one,
    and without network the file is offered under the selected format. *)
Theorem downloaded_file_is_recorded
  (d : Download) (file : str) (seen : list ModelMetadata) (a : App) (sz : N) :
  fileExists d = false -> transferred d = true ->
  statDownloaded d = Some sz ->
  fst (handleDownloadModel d file seen a) =
  Transfer file :: map ProgressCallback (reported d) ++ [AlertSuccess] /\
  getModelFormatInfo file (snd (handleDownloadModel d file seen a))
  = selectedModelFormat a /\
  modelSize file (snd (handleDownloadModel d file seen a)) = Some sz /\
  In file (downloadedModels (snd (handleDownloadModel d file seen a))) /\
  In file (fetchAvailableGGUFs None (selectedModelFormat a)
             (snd (handleDownloadModel d file seen a))).
Proof.
  intros He Ht Hs. unfold handleDownloadModel, download.
  rewrite He, Ht, Hs. cbn [fst snd]. split; [reflexivity|].
  set (new := {| filename := file; format := selectedModelFormat a;
                 downloadDate := now d; size := Some sz |}).
  set (a1 := setModelMetadata (upsert file new (modelMetadata a)) a).
  set (a2 := setDownloadedModels _ a1).
  destruct (loadModelFrom_lists (context a) (loadDownloaded d) file seen a2)
    as [Hd Hm].
  assert (Hfind :
    exists r,
      find (fun m => str_eqb (filename m) file)
        (modelMetadata (Engine.after
           (Engine.loadModelFrom (context a) (loadDownloaded d) file seen a2)
           a2)) = Some r /\
      format r = selectedModelFormat a /\ size r = Some sz /\
      filename r = file).
  { destruct Hm as [-> | ->].
    - exists new. split; [|easy]. now apply find_upsert.
    - rewrite find_fixFormat.
      change (modelMetadata a2) with (upsert file new (modelMetadata a)).
      rewrite find_upsert by reflexivity. cbn [option_map].
      eexists. split; [reflexivity|].
      unfold Engine.fixFormat. cbn [filename new]. rewrite str_eqb_refl.
      cbn. change (selectedModelFormat a2) with (selectedModelFormat a).
      now destruct (selectedModelFormat a). }
  destruct Hfind as (r & Hr & Hf & Hsz & Hn).
  unfold getModelFormatInfo, modelSize, fetchAvailableGGUFs.
  rewrite Hr, Hd. repeat split; try assumption.
  - subst a2. cbn [setDownloadedModels downloadedModels].
    destruct (existsb (str_eqb file) (downloadedModels a1)) eqn:E.
    + now apply existsb_name.
    + apply in_or_app. right. now left.
  - apply in_map_iff. exists r. split; [exact Hn|].
    apply filter_In. split; [now apply find_some in Hr|].
    now apply str_eqb_eq.
Qed.

Lemma downloaded_file_is_recorded_witness :
  fileExists
    {| fileExists := false; statExisting := None;
       loadExisting := loadExisting refused_file; reported := [50; 100]%N;
       transferred := true; statDownloaded := Some 500%N;
       now := lit "2025-01-02T00:00:00.000Z";
       loadDownloaded := loadDownloaded refused_file |} = false /\
  transferred
    {| fileExists := false; statExisting := None;
       loadExisting := loadExisting refused_file; reported := [50; 100]%N;
       transferred := true; statDownloaded := Some 500%N;
       now := lit "2025-01-02T00:00:00.000Z";
       loadDownloaded := loadDownloaded refused_file |} = true /\
  statDownloaded
    {| fileExists := false; statExisting := None;
       loadExisting := loadExisting refused_file; reported := [50; 100]%N;
       transferred := true; statDownloaded := Some 500%N;
       now := lit "2025-01-02T00:00:00.000Z";
       loadDownloaded := loadDownloaded refused_file |} = Some 500%N /\
  modelSize (lit "m.gguf")
    (snd (handleDownloadModel
            {| fileExists := false; statExisting := None;
               loadExisting := loadExisting refused_file;
               reported := [50; 100]%N;
               transferred := true; statDownloaded := Some 500%N;
               now := lit "2025-01-02T00:00:00.000Z";
               loadDownloaded := loadDownloaded refused_file |}
            (lit "m.gguf") [] initial_App)) = Some 500%N.
Proof.
  repeat (split; [reflexivity|]).
  exact (proj1 (proj2 (proj2
    (downloaded_file_is_recorded
       {| fileExists := false; statExisting := None;
          loadExisting := loadExisting refused_file; reported := [50; 100]%N;
          transferred := true; statDownloaded := Some 500%N;
          now := lit "2025-01-02T00:00:00.000Z";
          loadDownloaded := loadDownloaded refused_file |}
       (lit "m.gguf") [] initial_App 500%N eq_refl eq_refl eq_refl)))).
Defined.

(** A download that fails, of a file that was not there: when the
    transfer fails, or when it succeeds but the size of the result cannot
    be read, the failure is reported and the state is left as it was: no
    record is made, the file is not listed, and no model is loaded. *)
Theorem failed_download_changes_nothing
  (d : Download) (file : str) (seen : list ModelMetadata) (a : App) :
  fileExists d = false ->
  transferred d = false \/ statDownloaded d = None ->
  handleDownloadModel d file seen a =
  (Transfer file :: map ProgressCallback (reported d) ++ [AlertDownloadFailed],
   a).
Proof.
  intros He H. unfold handleDownloadModel, download. rewrite He.
  destruct H as [-> | ->]; [reflexivity|].
  now destruct (transferred d).
Qed.

Lemma failed_download_changes_nothing_witness :
  fileExists
    {| fileExists := false; statExisting := None;
       loadExisting := loadExisting refused_file; reported := [50]%N;
       transferred := true; statDownloaded := None;
       now := lit "2025-01-02T00:00:00.000Z";
       loadDownloaded := loadDownloaded refused_file |} = false /\
  (transferred
     {| fileExists := false; statExisting := None;
        loadExisting := loadExisting refused_file; reported := [50]%N;
        transferred := true; statDownloaded := None;
        now := lit "2025-01-02T00:00:00.000Z";
        loadDownloaded := loadDownloaded refused_file |} = false \/
   statDownloaded
     {| fileExists := false; statExisting := None;
        loadExisting := loadExisting refused_file; reported := [50]%N;
        transferred := true; statDownloaded := None;
        now := lit "2025-01-02T00:00:00.000Z";
        loadDownloaded := loadDownloaded refused_file |} = None) /\
  handleDownloadModel
    {| fileExists := false; statExisting := None;
       loadExisting := loadExisting refused_file; reported := [50]%N;
       transferred := true; statDownloaded := None;
       now := lit "2025-01-02T00:00:00.000Z";
       loadDownloaded := loadDownloaded refused_file |}
    (lit "m.gguf") [] initial_App =
  ([Transfer (lit "m.gguf"); ProgressCallback 50%N; AlertDownloadFailed],
   initial_App).
Proof.
  split; [reflexivity|]. split; [right; reflexivity|].
  exact (failed_download_changes_nothing
           {| fileExists := false; statExisting := None;
              loadExisting := loadExisting refused_file; reported := [50]%N;
              transferred := true; statDownloaded := None;
              now := lit "2025-01-02T00:00:00.000Z";
              loadDownloaded := loadDownloaded refused_file |}
           (lit "m.gguf") [] initial_App eq_refl (or_intror eq_refl)).
Defined.

End DownloadMore.

(* ================================================================== *)
(** * The lists of the selection page *)
(* ================================================================== *)

Section CatalogFacts.

Import Meta Catalog.

(** The format inferred from a name is [Unknown] exactly when none of the
    eight spellings occurs in the name, and otherwise it is one of the
    four formats of [modelFormats]. *)
Theorem unknown_format_means_no_spelling (name : str) :
  (inferFormat name = Engine.UNKNOWN <->
   existsb (fun spelling => includes spelling name)
     [lit "Llama-3.2"; lit "llama-3.2"; lit "Qwen2"; lit "qwen2";
      lit "DeepSeek"; lit "deepseek"; lit "SmolLM"; lit "smollm"] = false) /\
  In (inferFormat name) (Engine.UNKNOWN :: modelFormats).
Proof.
  unfold inferFormat. cbn [existsb].
  destruct (includes (lit "Llama-3.2") name);
    [cbn; split; [split; intros H; vm_compute in H; discriminate|auto]|].
  destruct (includes (lit "llama-3.2") name);
    [cbn; split; [split; intros H; vm_compute in H; discriminate|auto]|].
  destruct (includes (lit "Qwen2") name);
    [cbn; split; [split; intros H; vm_compute in H; discriminate|auto]|].
  destruct (includes (lit "qwen2") name);
    [cbn; split; [split; intros H; vm_compute in H; discriminate|auto]|].
  destruct (includes (lit "DeepSeek") name);
    [cbn; split; [split; intros H; vm_compute in H; discriminate|auto 6]|].
  destruct (includes (lit "deepseek") name);
    [cbn; split; [split; intros H; vm_compute in H; discriminate|auto 6]|].
  destruct (includes (lit "SmolLM") name);
    [cbn; split; [split; intros H; vm_compute in H; discriminate|auto 6]|].
  destruct (includes (lit "smollm") name);
    [cbn; split; [split; intros H; vm_compute in H; discriminate|auto 6]|].
  cbn. split; [split; reflexivity|auto].
Qed.

Lemma group_member (a : App) (label : str) (group : list ModelMetadata)
  (m : ModelMetadata) :
  In (label, group) (downloadedGroups a) -> In m group ->
  format m = label /\ In label modelFormats /\
  In (filename m) (downloadedModels a) /\ In m (modelMetadata a) /\
  selectedModelFormat a = [].
Proof.
  unfold downloadedGroups. intros Hg Hm.
  destruct (selectedModelFormat a); [|contradiction].
  destruct (downloadedModels a) as [|x dl] eqn:Ed; [contradiction|].
  apply filter_In in Hg as [Hg _].
  apply in_map_iff in Hg as (lb & [= -> <-] & Hlb).
  unfold modelsInFormat in Hm. apply filter_In in Hm as [Hin Hm].
  apply andb_true_iff in Hm as [Hf Hd].
  apply str_eqb_eq in Hf. apply existsb_name in Hd.
  rewrite Ed in Hd. auto.
Qed.

(** The section of the downloaded models lists a record only under its
    own format, only when that format is one of the four of
    [modelFormats], and only when its file is among the downloaded
    models: a record whose format is [Unknown] is listed nowhere. *)
Theorem groups_list_known_formats_only
  (a : App) (label : str) (group : list ModelMetadata) (m : ModelMetadata) :
  In (label, group) (downloadedGroups a) -> In m group ->
  format m = label /\ In label modelFormats /\
  In (filename m) (downloadedModels a) /\ In m (modelMetadata a) /\
  str_eqb (format m) Engine.UNKNOWN = false.
Proof.
  intros Hg Hm.
  destruct (group_member a label group m Hg Hm) as (Hf & Hl & Hd & Hin & _).
  repeat split; try assumption. rewrite Hf.
  destruct Hl as [<-|[<-|[<-|[<-|[]]]]]; reflexivity.
Qed.

Lemma groups_list_known_formats_only_witness :
  In (QWEN, [one_record])
     (downloadedGroups
        (setDownloadedModels [lit "qwen2-instruct-q4.gguf"]
           (setModelMetadata [one_record] initial_App))) /\
  In one_record [one_record] /\
  format one_record = QWEN /\ In QWEN modelFormats /\
  In (filename one_record)
     (downloadedModels
        (setDownloadedModels [lit "qwen2-instruct-q4.gguf"]
           (setModelMetadata [one_record] initial_App))) /\
  In one_record
     (modelMetadata
        (setDownloadedModels [lit "qwen2-instruct-q4.gguf"]
           (setModelMetadata [one_record] initial_App))) /\
  str_eqb (format one_record) Engine.UNKNOWN = false.
Proof.
  assert (H1 : In (QWEN, [one_record])
     (downloadedGroups
        (setDownloadedModels [lit "qwen2-instruct-q4.gguf"]
           (setModelMetadata [one_record] initial_App))))
    by (vm_compute; auto).
  assert (H2 : In one_record [one_record]) by (simpl; auto).
  split; [exact H1|]. split; [exact H2|].
  exact (groups_list_known_formats_only _ QWEN [one_record] one_record H1 H2).
Defined.

(** A model file whose name has none of the spellings, found at startup
    with no record of its own: it is counted among the downloaded models,
    but the section of the downloaded models lists it in no group. *)
Theorem unrecognised_model_is_listed_nowhere
  (fs : Fs) (files : list str) (a : App) (name : str) :
  readDir fs = Some files -> In name files ->
  endsWith (lit ".gguf") name = true ->
  inferFormat name = Engine.UNKNOWN ->
  Forall (fun m => str_eqb (filename m) name = false) (modelMetadata a) ->
  In name (downloadedModels (reconcileEffect fs a)) /\
  Forall (fun g => existsb (str_eqb name) (map filename (snd g)) = false)
         (downloadedGroups (reconcileEffect fs a)).
Proof.
  intros Hdir Hin Hext Hunk Hold.
  destruct (reconcile_appends_every_model_aux fs files a Hdir) as [HM HD].
  split.
  - rewrite HD. unfold ggufFiles. now apply filter_In.
  - apply Forall_forall. intros [label group] Hg. cbn [snd].
    destruct (existsb _ _) eqn:E; [|reflexivity].
    apply existsb_name, in_map_iff in E as (m & Hn & Hm).
    destruct (group_member _ label group m Hg Hm) as (Hf & Hl & _ & Hmm & _).
    rewrite HM in Hmm. apply in_app_or in Hmm as [Hmm|Hmm].
    + rewrite Forall_forall in Hold. apply Hold in Hmm.
      rewrite Hn, str_eqb_refl in Hmm. discriminate.
    + apply in_map_iff in Hmm as (f & <- & _). cbn in Hn, Hf. subst f.
      rewrite Hunk in Hf. subst label.
      destruct Hl as [H|[H|[H|[H|[]]]]]; vm_compute in H; discriminate.
Qed.

Lemma unrecognised_model_is_listed_nowhere_witness :
  readDir {| readDir := Some [lit "mistral-7b.gguf"];
             stat := fun _ => Some 500%N;
             clock := fun _ => lit "2025-01-01T00:00:00.000Z" |}
  = Some [lit "mistral-7b.gguf"] /\
  In (lit "mistral-7b.gguf") [lit "mistral-7b.gguf"] /\
  endsWith (lit ".gguf") (lit "mistral-7b.gguf") = true /\
  inferFormat (lit "mistral-7b.gguf") = Engine.UNKNOWN /\
  Forall (fun m => str_eqb (filename m) (lit "mistral-7b.gguf") = false)
         (modelMetadata initial_App) /\
  In (lit "mistral-7b.gguf")
     (downloadedModels
        (reconcileEffect
           {| readDir := Some [lit "mistral-7b.gguf"];
              stat := fun _ => Some 500%N;
              clock := fun _ => lit "2025-01-01T00:00:00.000Z" |}
           initial_App)).
Proof.
  assert (H2 : In (lit "mistral-7b.gguf") [lit "mistral-7b.gguf"])
    by (simpl; auto).
  assert (H5 : Forall (fun m => str_eqb (filename m) (lit "mistral-7b.gguf")
                                = false) (modelMetadata initial_App))
    by constructor.
  split; [reflexivity|]. split; [exact H2|]. split; [reflexivity|].
  split; [reflexivity|]. split; [exact H5|].
  exact (proj1 (unrecognised_model_is_listed_nowhere
                  {| readDir := Some [lit "mistral-7b.gguf"];
                     stat := fun _ => Some 500%N;
                     clock := fun _ => lit "2025-01-01T00:00:00.000Z" |}
                  [lit "mistral-7b.gguf"] initial_App (lit "mistral-7b.gguf")
                  eq_refl H2 eq_refl eq_refl H5)).
Defined.

(** A record whose format is [Unknown], loaded while a format is
    selected, gets that format: after a load that succeeds, the format
    read for the file is the selected one. *)
Theorem loading_sets_unknown_format
  (c : Engine.Calls) (file : str) (seen : list ModelMetadata) (a : App)
  (h : Handle) (old now : ModelMetadata) :
  Engine.init c = Some h ->
  (context a <> None -> Engine.released c = true) ->
  find (fun m => str_eqb (filename m) file) seen = Some old ->
  format old = Engine.UNKNOWN ->
  find (fun m => str_eqb (filename m) file) (modelMetadata a) = Some now ->
  selectedModelFormat a <> [] ->
  getModelFormatInfo file
    (Engine.after (Engine.loadModel c file seen a) a)
  = selectedModelFormat a.
Proof.
  intros Hi Hr Hseen Hold Hnow Hsel.
  assert (HM : modelMetadata (Engine.after (Engine.loadModel c file seen a) a)
               = map (Engine.fixFormat file (selectedModelFormat a))
                     (modelMetadata a)).
  { unfold Engine.loadModel, Engine.initSteps, Engine.after.
    destruct (context a) as [h0|].
    - rewrite Hr by discriminate. rewrite Hi, Hseen, Hold. reflexivity.
    - rewrite Hi, Hseen, Hold. reflexivity. }
  unfold getModelFormatInfo. rewrite HM, find_fixFormat, Hnow.
  cbn [option_map]. unfold Engine.fixFormat.
  apply find_some in Hnow as [_ Hn]. rewrite Hn. cbn [format].
  destruct (selectedModelFormat a); [contradiction|reflexivity].
Qed.

Lemma loading_sets_unknown_format_witness :
  Engine.init {| Engine.released := true; Engine.init := Some 1%nat |}
  = Some 1%nat /\
  (context
     {| context := None; engine := [];
        conversation := INITIAL_CONVERSATION; tokensPerSecond := [];
        modelMetadata := [stray_record];
        downloadedModels := [lit "mistral-7b.gguf"];
        selectedModelFormat := QWEN |} <> None ->
   Engine.released {| Engine.released := true; Engine.init := Some 1%nat |}
   = true) /\
  find (fun m => str_eqb (filename m) (lit "mistral-7b.gguf")) [stray_record]
  = Some stray_record /\
  format stray_record = Engine.UNKNOWN /\
  selectedModelFormat
    {| context := None; engine := [];
       conversation := INITIAL_CONVERSATION; tokensPerSecond := [];
       modelMetadata := [stray_record];
       downloadedModels := [lit "mistral-7b.gguf"];
       selectedModelFormat := QWEN |} <> [] /\
  getModelFormatInfo (lit "mistral-7b.gguf")
    (Engine.after
       (Engine.loadModel
          {| Engine.released := true; Engine.init := Some 1%nat |}
          (lit "mistral-7b.gguf") [stray_record]
          {| context := None; engine := [];
             conversation := INITIAL_CONVERSATION; tokensPerSecond := [];
             modelMetadata := [stray_record];
             downloadedModels := [lit "mistral-7b.gguf"];
             selectedModelFormat := QWEN |})
       {| context := None; engine := [];
          conversation := INITIAL_CONVERSATION; tokensPerSecond := [];
          modelMetadata := [stray_record];
          downloadedModels := [lit "mistral-7b.gguf"];
          selectedModelFormat := QWEN |})
  = QWEN.
Proof.
  assert (H2 : context
     {| context := None; engine := [];
        conversation := INITIAL_CONVERSATION; tokensPerSecond := [];
        modelMetadata := [stray_record];
        downloadedModels := [lit "mistral-7b.gguf"];
        selectedModelFormat := QWEN |} <> None ->
   Engine.released {| Engine.released := true; Engine.init := Some 1%nat |}
   = true) by reflexivity.
  assert (H6 : selectedModelFormat
    {| context := None; engine := [];
       conversation := INITIAL_CONVERSATION; tokensPerSecond := [];
       modelMetadata := [stray_record];
       downloadedModels := [lit "mistral-7b.gguf"];
       selectedModelFormat := QWEN |} <> []) by (vm_compute; discriminate).
  split; [reflexivity|]. split; [exact H2|]. split; [reflexivity|].
  split; [reflexivity|]. split; [exact H6|].
  exact (loading_sets_unknown_format
           {| Engine.released := true; Engine.init := Some 1%nat |}
           (lit "mistral-7b.gguf") [stray_record] _ 1%nat stray_record
           stray_record eq_refl H2 eq_refl eq_refl eq_refl H6).
Defined.

End CatalogFacts.
